(** * Happiness / weather warehouse: a shallow embedding of the ETL scripts

    The development follows the repository file by file:
    - [Py]: the few Python string and float operations the scripts rely on;
    - [Config]: [config.py] (the configured city list);
    - [Warehouse]: the three tables and the SQL statements the loaders send;
    - [EtlWeather]: [etl_weather.py] ([fetch_coordinates] and the per-city
      loop [fetch_and_load_weather]);
    - [EtlHappiness]: [etl_happiness.py] ([load_happiness_data]);
    - [Report]: the control flow of [generate_happiness_report.py];
    - [Props] and [Examples]: the predicates the statements use and sample
      behaviours of the services;
    - [RunEtl] and [Queries]: [run_etl.py] and further vocabulary;
    - [WeatherCodeFacts], [TableFacts], [LoopFacts], [HappinessFacts],
      [ReportFacts], [ParsingFacts], [LoaderFacts], [CountryFacts] and
      [ReportOrderFacts]: the properties.

    The outside world (HTTP responses, database failures, the database clock)
    is an explicit argument of every operation, so that each statement
    quantifies over all behaviours of the services. *)

From Stdlib Require Import ZArith List Bool String Ascii Lia.
From Stdlib Require Import PrimFloat DecimalString.
Import ListNotations.

Local Open Scope string_scope.
Local Open Scope Z_scope.
Local Open Scope list_scope.

(* ------------------------------------------------------------------ *)
(** ** Python primitives *)

Module Py.

(** Python floats are IEEE doubles; [bool(x)] is [x != 0.0], so both zeros
    are falsy and NaN is truthy. *)
Definition float_truthy (x : float) : bool := negb (PrimFloat.eqb x 0%float).

(** [bool(v)] for an optional float: [None] is falsy. *)
Definition truthy (v : option float) : bool :=
  match v with
  | None => false
  | Some x => float_truthy x
  end.

(** [str(n)] for an [int]: decimal digits with a leading minus sign. *)
Definition str_of_int (n : Z) : string := NilZero.string_of_int (Z.to_int n).

(** A Python [str] is kept as its UTF-8 encoding. [c.isspace()] holds of
    the characters U+0009-000D, U+001C-001F, U+0020, U+0085, U+00A0, U+1680,
    U+2000-200A, U+2028, U+2029, U+202F, U+205F and U+3000: the one-byte
    ones are recognised by [isspace], the two-byte ones (C2 85, C2 A0) by
    [isspace2], the three-byte ones (E1 9A 80; E2 80 80-8A, A8, A9, AF;
    E2 81 9F; E3 80 80) by [isspace3]. *)
Definition byte (c : ascii) : nat := N.to_nat (N_of_ascii c).

Definition isspace (c : ascii) : bool :=
  let n := N.to_nat (N_of_ascii c) in
  (Nat.leb 9 n && Nat.leb n 13) || (Nat.leb 28 n && Nat.leb n 32).

Definition isspace2 (c d : ascii) : bool :=
  Nat.eqb (byte c) 194 && (Nat.eqb (byte d) 133 || Nat.eqb (byte d) 160).

Definition isspace3 (c d e : ascii) : bool :=
  (Nat.eqb (byte c) 225 && Nat.eqb (byte d) 154 && Nat.eqb (byte e) 128)
  || (Nat.eqb (byte c) 226 && Nat.eqb (byte d) 128
      && ((Nat.leb 128 (byte e) && Nat.leb (byte e) 138)
          || Nat.eqb (byte e) 168 || Nat.eqb (byte e) 169
          || Nat.eqb (byte e) 175))
  || (Nat.eqb (byte c) 226 && Nat.eqb (byte d) 129 && Nat.eqb (byte e) 159)
  || (Nat.eqb (byte c) 227 && Nat.eqb (byte d) 128 && Nat.eqb (byte e) 128).

(** A finished run of non-space characters, if any, in front of the
    following ones. *)
Definition flush (cur : string) (rest : list string) : list string :=
  match cur with
  | EmptyString => rest
  | _ => cur :: rest
  end.

(** [s.split()] without argument: the maximal runs of non-space characters.
    [cur] is the run being read. *)
Fixpoint split_ws_from (cur : string) (s : string) : list string :=
  match s with
  | EmptyString => flush cur []
  | String c s1 =>
      if isspace c then flush cur (split_ws_from EmptyString s1)
      else
        match s1 with
        | String d s2 =>
            if isspace2 c d then flush cur (split_ws_from EmptyString s2)
            else
              match s2 with
              | String e s3 =>
                  if isspace3 c d e
                  then flush cur (split_ws_from EmptyString s3)
                  else split_ws_from (cur ++ String c EmptyString)%string s1
              | EmptyString =>
                  split_ws_from (cur ++ String c EmptyString)%string s1
              end
        | EmptyString => split_ws_from (cur ++ String c EmptyString)%string s1
        end
  end.

Definition split_ws (s : string) : list string := split_ws_from EmptyString s.

(** [s.split(sep)] for a one-character separator: never empty. *)
Fixpoint split_on_from (sep : ascii) (cur : string) (s : string) : list string :=
  match s with
  | EmptyString => [cur]
  | String c s' =>
      if Ascii.eqb c sep
      then cur :: split_on_from sep EmptyString s'
      else split_on_from sep (cur ++ String c EmptyString)%string s'
  end.

Definition split_on (sep : ascii) (s : string) : list string :=
  split_on_from sep EmptyString s.

(** [s.lstrip()] when [backwards] is false. When it is true, [s] is read as
    a reversed string, whose multi-byte characters come last byte first:
    the leading white space removed is the trailing one of the original. *)
Fixpoint lstrip_bytes (backwards : bool) (s : string) : string :=
  match s with
  | String c s1 =>
      if isspace c then lstrip_bytes backwards s1
      else
        match s1 with
        | String d s2 =>
            if (if backwards then isspace2 d c else isspace2 c d)
            then lstrip_bytes backwards s2
            else
              match s2 with
              | String e s3 =>
                  if (if backwards then isspace3 e d c else isspace3 c d e)
                  then lstrip_bytes backwards s3
                  else s
              | EmptyString => s
              end
        | EmptyString => s
        end
  | EmptyString => EmptyString
  end.

Definition lstrip (s : string) : string := lstrip_bytes false s.

Fixpoint rev_string_onto (s acc : string) : string :=
  match s with
  | EmptyString => acc
  | String c s' => rev_string_onto s' (String c acc)
  end.

Definition rev_string (s : string) : string := rev_string_onto s EmptyString.

(** [s.strip()]. *)
Definition strip (s : string) : string :=
  rev_string (lstrip_bytes true (rev_string (lstrip s))).

(** [d.get(k, default)] on a dict literal, kept as an association list. *)
Fixpoint dict_get {K V : Type} (eqb : K -> K -> bool)
         (d : list (K * V)) (k : K) (default : V) : V :=
  match d with
  | [] => default
  | (k', v) :: d' => if eqb k' k then v else dict_get eqb d' k default
  end.

Fixpoint dict_mem {K V : Type} (eqb : K -> K -> bool)
         (d : list (K * V)) (k : K) : bool :=
  match d with
  | [] => false
  | (k', _) :: d' => eqb k' k || dict_mem eqb d' k
  end.

End Py.

(* ------------------------------------------------------------------ *)
(** ** config.py *)

Module Config.

Definition CITIES : list string :=
  [ "Nairobi,Kenya"; "Mombasa,Kenya"; "Kisumu,Kenya"; "Eldoret,Kenya";
    "Nakuru,Kenya"; "Thika,Kenya"; "Nyeri,Kenya"; "Machakos,Kenya";
    "Garissa,Kenya"; "Kakamega,Kenya";
    "Lagos,Nigeria"; "Cairo,Egypt"; "Cape Town,South Africa";
    "Johannesburg,South Africa"; "Addis Ababa,Ethiopia";
    "Dar es Salaam,Tanzania"; "Accra,Ghana"; "Kampala,Uganda";
    "Luanda,Angola"; "Casablanca,Morocco";
    "London,UK"; "Paris,France"; "Berlin,Germany"; "Madrid,Spain";
    "Rome,Italy"; "Moscow,Russia"; "Beijing,China"; "Tokyo,Japan";
    "Seoul,South Korea"; "Mumbai,India"; "Dubai,UAE"; "New York,US";
    "Los Angeles,US"; "Toronto,Canada"; "Mexico City,Mexico";
    "São Paulo,Brazil"; "Buenos Aires,Argentina"; "Sydney,Australia";
    "Melbourne,Australia"; "Singapore,Singapore"; "Bangkok,Thailand";
    "Istanbul,Turkey"; "Riyadh,Saudi Arabia"; "Jakarta,Indonesia" ].

End Config.

(* ------------------------------------------------------------------ *)
(** ** etl_weather.py: the pure part *)

Module WeatherCode.

(** The [descriptions] dict literal of the loop body. *)
Definition descriptions : list (Z * string) :=
  [ (0, "Clear sky"); (1, "Mainly clear"); (2, "Partly cloudy"); (3, "Overcast");
    (45, "Fog"); (48, "Depositing rime fog");
    (51, "Light drizzle"); (61, "Rain"); (71, "Snow"); (80, "Rain showers");
    (95, "Thunderstorm") ].

(** [descriptions.get(code, f"Weather code {code}")]. *)
Definition weather_desc (code : Z) : string :=
  Py.dict_get Z.eqb descriptions code ("Weather code " ++ Py.str_of_int code)%string.

(** ["Clouds" if 1 <= code <= 3 else weather_desc.split()[0]]; [None] stands
    for the [IndexError] of indexing an empty split. *)
Definition weather_main (code : Z) : option string :=
  if (1 <=? code) && (code <=? 3)
  then Some "Clouds"
  else hd_error (Py.split_ws (weather_desc code)).

Definition mapped (code : Z) : bool := Py.dict_mem Z.eqb descriptions code.

End WeatherCode.

(* ------------------------------------------------------------------ *)
(** ** The warehouse: tables, statements, connection *)

Module Warehouse.

(** A nullable numeric column. *)
Definition num := option float.

(** [dim_country], as the happiness loader's INSERT lists its columns. *)
Record country_row := {
  dc_country_name : string;
  dc_region : option string;
  dc_ladder_score : num;
  dc_gdp_per_capita : num;
  dc_social_support : num;
  dc_healthy_life_expectancy : num;
  dc_freedom_to_make_choices : num;
  dc_generosity : num;
  dc_perceptions_of_corruption : num
}.

(** [dim_city]: [city_id] is generated, [city_name] is the conflict target of
    the upsert. *)
Record city_row := {
  dcity_city_id : Z;
  dcity_city_name : string;
  dcity_country_name : string
}.

(** [fact_weather_snapshot]: the seven columns the loader's INSERT lists and
    the fetch timestamp the database fills in. *)
Record snapshot_row := {
  fw_city_id : Z;
  fw_temperature_celsius : num;
  fw_feels_like_celsius : num;
  fw_humidity_percent : num;
  fw_weather_main : string;
  fw_weather_description : string;
  fw_wind_speed_mps : num;
  fw_fetch_date : Z
}.

Record tables := {
  dim_country : list country_row;
  dim_city : list city_row;
  fact_weather_snapshot : list snapshot_row
}.

Definition empty_tables : tables :=
  {| dim_country := []; dim_city := []; fact_weather_snapshot := [] |}.

(** *** dim_city: INSERT ... ON CONFLICT (city_name) DO UPDATE ... RETURNING city_id *)

Fixpoint find_city (name : string) (rows : list city_row) : option city_row :=
  match rows with
  | [] => None
  | r :: rows' =>
      if String.eqb (dcity_city_name r) name then Some r else find_city name rows'
  end.

Fixpoint set_country (name country : string) (rows : list city_row)
  : list city_row :=
  match rows with
  | [] => []
  | r :: rows' =>
      if String.eqb (dcity_city_name r) name
      then {| dcity_city_id := dcity_city_id r;
              dcity_city_name := dcity_city_name r;
              dcity_country_name := country |} :: rows'
      else r :: set_country name country rows'
  end.

(** The statement on the rows: on a name already present the row is updated
    in place and its id returned; otherwise a row with the proposed id
    [fresh] is appended. *)
Definition upsert_city (fresh : Z) (name country : string)
           (rows : list city_row) : list city_row * Z :=
  match find_city name rows with
  | Some r => (set_country name country rows, dcity_city_id r)
  | None =>
      (rows ++ [ {| dcity_city_id := fresh;
                    dcity_city_name := name;
                    dcity_country_name := country |} ], fresh)
  end.

(** *** fact_weather_snapshot: INSERT ... ON CONFLICT DO NOTHING *)

(** Modelled from the spec: the table declarations are not part of the
    sources, so the unique constraint that [ON CONFLICT DO NOTHING] reacts to
    is taken from the data model of the specification, "duplicate inserts for
    the same city/time are silently ignored": the conflict key of a snapshot
    is its city id together with its fetch timestamp. *)
Definition snapshot_key (r : snapshot_row) : Z * Z :=
  (fw_city_id r, fw_fetch_date r).

Definition same_key (r1 r2 : snapshot_row) : bool :=
  (fst (snapshot_key r1) =? fst (snapshot_key r2)) &&
  (snd (snapshot_key r1) =? snd (snapshot_key r2)).

Definition insert_snapshot (r : snapshot_row) (rows : list snapshot_row)
  : list snapshot_row :=
  if existsb (same_key r) rows then rows else rows ++ [r].

(** *** dim_country: INSERT ... ON CONFLICT (country_name) DO UPDATE SET all columns *)

Fixpoint upsert_country (r : country_row) (rows : list country_row)
  : list country_row :=
  match rows with
  | [] => [r]
  | r' :: rows' =>
      if String.eqb (dc_country_name r') (dc_country_name r)
      then r :: rows'
      else r' :: upsert_country r rows'
  end.

(** *** The connection

    [committed] is what the database holds durably, [working] what the open
    transaction of this connection sees. psycopg2 opens a transaction with
    the first statement and keeps it open until [commit] or [rollback].
    Modelled from the spec: [city_seq] is the generator of [city_id] ("upsert
    the city row, obtaining its identifier"); like a database sequence it is
    advanced by every upsert and is not undone by a rollback. *)
Record conn := {
  committed : tables;
  working : tables;
  city_seq : Z
}.

(** [psycopg2.connect] to a database holding [t]. *)
Definition connect (t : tables) (seq : Z) : conn :=
  {| committed := t; working := t; city_seq := seq |}.

Definition fresh_warehouse : conn := connect empty_tables 1.

(** What the scripts leave behind, in order of occurrence. *)
Inductive event :=
| CityUpsert (city country : string) (city_id : Z)
| SnapshotInsert (r : snapshot_row)
| CountryUpsert (r : country_row)
| Commit
| Rollback
| Close
| LogWarning (city : string)
| LogError (city : string)
| PrintLoaded (city country : string) (temperature : num)
| PrintDone
| PrintOriginalColumns
| PrintLoadedCountries (n : nat)
| PrintTop5 (rows : list (string * num)).

(** Python exceptions the scripts can meet. Only [DbError] is a
    [psycopg2.Error]. *)
Inductive exn :=
| RequestException
| KeyError (key : string)
| IndexError
| ValueError
| TypeError
| JSONDecodeError
| ConnectionError
| DbError.

Inductive result (A : Type) :=
| Ok (a : A)
| Raised (e : exn).
Arguments Ok {A} a.
Arguments Raised {A} e.

(** Code running on a connection: it emits events, changes the connection
    and returns or raises. *)
Definition M (A : Type) : Type := conn -> list event * conn * result A.

Definition ret {A} (a : A) : M A := fun k => ([], k, Ok a).

Definition raise {A} (e : exn) : M A := fun k => ([], k, Raised e).

Definition bind {A B} (m : M A) (f : A -> M B) : M B :=
  fun k =>
    match m k with
    | (ev1, k1, Ok a) =>
        match f a k1 with
        | (ev2, k2, r) => (ev1 ++ ev2, k2, r)
        end
    | (ev1, k1, Raised e) => (ev1, k1, Raised e)
    end.

Definition emit (e : event) : M unit := fun k => ([e], k, Ok tt).

(** [try: body  except psycopg2.Error: handler]. *)
Definition try_except_db {A} (body : M A) (handler : M A) : M A :=
  fun k =>
    match body k with
    | (ev1, k1, Raised DbError) =>
        match handler k1 with
        | (ev2, k2, r) => (ev1 ++ ev2, k2, r)
        end
    | other => other
    end.

(** [for x in xs: body(x)]. *)
Fixpoint for_each {A} (xs : list A) (body : A -> M unit) : M unit :=
  match xs with
  | [] => ret tt
  | x :: xs' => bind (body x) (fun _ => for_each xs' body)
  end.

(** [conn.commit()] on a healthy connection. *)
Definition do_commit : M unit :=
  fun k => ([Commit],
            {| committed := working k; working := working k;
               city_seq := city_seq k |}, Ok tt).

(** [conn.rollback()] on a healthy connection. *)
Definition rollback : M unit :=
  fun k => ([Rollback],
            {| committed := committed k; working := committed k;
               city_seq := city_seq k |}, Ok tt).

(** [cur.close(); conn.close()]: an open transaction is discarded. Closing
    a client-side cursor and a connection sends no statement. *)
Definition close : M unit :=
  fun k => ([Close],
            {| committed := committed k; working := committed k;
               city_seq := city_seq k |}, Ok tt).

End Warehouse.

Declare Scope db_scope.
Delimit Scope db_scope with db.
Notation "x <- m ;; f" := (Warehouse.bind m (fun x => f))
  (at level 61, m at next level, right associativity) : db_scope.
Notation "m ;;; f" := (Warehouse.bind m (fun _ => f))
  (at level 61, right associativity) : db_scope.

(* ------------------------------------------------------------------ *)
(** ** etl_weather.py *)

Module EtlWeather.
Import Warehouse.
Local Open Scope db_scope.

Definition COUNTRY_MAPPING : list (string * string) :=
  [ ("UK", "United Kingdom"); ("US", "United States");
    ("UAE", "United Arab Emirates"); ("Turkey", "Turkiye");
    ("South Korea", "South Korea"); ("Russia", "Russia");
    ("China", "China"); ("Brazil", "Brazil") ].

(** *** The services *)

(** One element of the geocoder's JSON array: [float(data["lat"])] and
    [float(data["lon"])], [None] when the key is missing or the text is not a
    number (the call raises). *)
Record geo_item := { lat : option float; lon : option float }.

Inductive geo_body :=
| GeoNotJson                       (* [response.json()] or [[0]] raises *)
| GeoArray (items : list geo_item).

Inductive geo_response :=
| GeoRaises                        (* [requests.get] raises *)
| GeoReply (status_code : Z) (body : geo_body).

(** The JSON value under ["weather_code"]: an integer (a JSON boolean acts
    as 1 or 0), or a value that is no number (null, a string, an array, an
    object), on which the lookup in [descriptions] or the comparison
    [1 <= code] raises a [TypeError]. JSON numbers with a fractional part
    are outside this model. *)
Inductive json_code :=
| CodeInt (n : Z)
| CodeNotNumber.

(** The ["current"] object of the forecast; a field is [None] when its key
    is absent. The fields other than [weather_code] are JSON numbers or
    null. *)
Record current_weather := {
  weather_code : option json_code;
  temperature_2m : option num;
  apparent_temperature : option num;
  relative_humidity_2m : option num;
  wind_speed_10m : option num
}.

(** The body of a forecast response, by what [response.json()["current"]]
    and the lookups in it do. *)
Inductive forecast_body :=
| NotJson                          (* no JSON: [response.json()] raises *)
| NotAnObject                      (* the document or its "current" member
                                      is no object: subscripting raises *)
| NoCurrent                        (* an object without "current" *)
| Current (data : current_weather).

Inductive forecast_response :=
| ForecastRaises                   (* [requests.get] raises *)
| ForecastReply (status_code : Z) (body : forecast_body).

Inductive db_op := OpCityUpsert | OpSnapshotInsert | OpCommit | OpRollback.

(** Everything outside the script, per configured city: what the two HTTP
    services answer, which database calls of its iteration fail with a
    [psycopg2.Error] (the two statements, the commit, and the rollback of the
    handler), and the timestamp the database gives a snapshot inserted for
    that city. The connection itself is open: [psycopg2.connect] has
    returned. *)
Record world := {
  geocode : string -> geo_response;
  forecast : string -> forecast_response;
  db_fails : string -> db_op -> bool;
  db_now : string -> Z
}.

(** *** fetch_coordinates *)

Definition fetch_coordinates (w : world) (city : string)
  : list event * (option float * option float) :=
  match geocode w city with
  | GeoRaises => ([LogWarning city], (None, None))
  | GeoReply status body =>
      if status =? 200 then
        match body with
        | GeoNotJson => ([LogWarning city], (None, None))
        | GeoArray [] => ([], (None, None))
        | GeoArray (data :: _) =>
            match lat data, lon data with
            | Some la, Some lo => ([], (Some la, Some lo))
            | _, _ => ([LogWarning city], (None, None))
            end
        end
      else ([], (None, None))
  end.

(** *** Database calls of the loop *)

(** [cur.execute(city_insert_query, (city, country)); cur.fetchone()[0]]. *)
Definition execute_city_upsert (w : world) (city country : string) : M Z :=
  fun k =>
    if db_fails w city OpCityUpsert then ([], k, Raised DbError)
    else
      let '(rows, id) := upsert_city (city_seq k) city country (dim_city (working k)) in
      ([CityUpsert city country id],
       {| committed := committed k;
          working := {| dim_country := dim_country (working k);
                        dim_city := rows;
                        fact_weather_snapshot := fact_weather_snapshot (working k) |};
          city_seq := city_seq k + 1 |},
       Ok id).

(** [cur.execute(weather_insert_query, (...))]. *)
Definition execute_snapshot_insert (w : world) (city : string)
           (r : snapshot_row) : M unit :=
  fun k =>
    if db_fails w city OpSnapshotInsert then ([], k, Raised DbError)
    else
      ([SnapshotInsert r],
       {| committed := committed k;
          working := {| dim_country := dim_country (working k);
                        dim_city := dim_city (working k);
                        fact_weather_snapshot :=
                          insert_snapshot r (fact_weather_snapshot (working k)) |};
          city_seq := city_seq k |},
       Ok tt).

(** [conn.commit()]. *)
Definition commit (w : world) (city : string) : M unit :=
  fun k =>
    if db_fails w city OpCommit then ([], k, Raised DbError) else do_commit k.

(** *** HTTP calls of the loop *)

Definition requests_get (w : world) (city : string) : M (Z * forecast_body) :=
  match forecast w city with
  | ForecastRaises => raise RequestException
  | ForecastReply status body => ret (status, body)
  end.

(** [conn.rollback()] in the handler. When it fails, the connection is of no
    use any more and the database drops the open transaction all the same. *)
Definition rollback_or_fail (w : world) (city : string) : M unit :=
  fun k =>
    if db_fails w city OpRollback
    then ([],
          {| committed := committed k; working := committed k;
             city_seq := city_seq k |},
          Raised DbError)
    else rollback k.

(** [response.json()["current"]]: a body that is no JSON raises in [json()],
    a document that is no object raises when subscripted. A "current" member
    that is no object raises the same [TypeError] at the first lookup in it,
    which is the next thing the loop does. *)
Definition json_current (body : forecast_body) : M current_weather :=
  match body with
  | NotJson => raise JSONDecodeError
  | NotAnObject => raise TypeError
  | NoCurrent => raise (KeyError "current")
  | Current data => ret data
  end.

(** The code as [descriptions.get] and [1 <= code <= 3] take it. *)
Definition int_code (code : json_code) : M Z :=
  match code with
  | CodeInt n => ret n
  | CodeNotNumber => raise TypeError
  end.

(** [data[key]]. *)
Definition getitem {A} (key : string) (field : option A) : M A :=
  match field with
  | None => raise (KeyError key)
  | Some v => ret v
  end.

(** The conditional that computes [weather_main]; the [IndexError] of
    [weather_desc.split()[0]] on an empty split is raised here. *)
Definition weather_main_of (code : Z) : M string :=
  match WeatherCode.weather_main code with
  | None => raise IndexError
  | Some m => ret m
  end.

(** *** The loop body *)

(** [city.split(",")[-1].strip()]. *)
Definition raw_country (city : string) : string :=
  Py.strip (last (Py.split_on "," city) EmptyString).

Definition country_of (city : string) : string :=
  Py.dict_get String.eqb COUNTRY_MAPPING (raw_country city) (raw_country city).

(** The [try] block of one iteration. *)
Definition load_city (w : world) (city country : string) : M unit :=
  city_id <- execute_city_upsert w city country ;;
  response <- requests_get w city ;;
  if fst response =? 200 then
    data <- json_current (snd response) ;;
    json_code <- getitem "weather_code" (weather_code data) ;;
    code <- int_code json_code ;;
    let weather_desc := WeatherCode.weather_desc code in
    weather_main <- weather_main_of code ;;
    temperature <- getitem "temperature_2m" (temperature_2m data) ;;
    feels_like <- getitem "apparent_temperature" (apparent_temperature data) ;;
    humidity <- getitem "relative_humidity_2m" (relative_humidity_2m data) ;;
    wind_speed <- getitem "wind_speed_10m" (wind_speed_10m data) ;;
    execute_snapshot_insert w city
      {| fw_city_id := city_id;
         fw_temperature_celsius := temperature;
         fw_feels_like_celsius := feels_like;
         fw_humidity_percent := humidity;
         fw_weather_main := weather_main;
         fw_weather_description := weather_desc;
         fw_wind_speed_mps := wind_speed;
         fw_fetch_date := db_now w city |} ;;;
    commit w city ;;;
    emit (PrintLoaded city country temperature)
  else ret tt.

(** The [except psycopg2.Error] block. *)
Definition skip_city (w : world) (city : string) : M unit :=
  rollback_or_fail w city ;;; emit (LogError city).

(** One iteration of [for city in CITIES]. *)
Definition process_city (w : world) (city : string) : M unit :=
  fun k =>
    let '(log, (la, lo)) := fetch_coordinates w city in
    if negb (Py.truthy la) || negb (Py.truthy lo) then (log, k, Ok tt)
    else
      match try_except_db (load_city w city (country_of city)) (skip_city w city) k with
      | (ev, k', r) => (log ++ ev, k', r)
      end.

(** [fetch_and_load_weather] from its loop on, on the open connection and a
    city list. *)
Definition fetch_and_load_weather_on (w : world) (cities : list string) : M unit :=
  for_each cities (process_city w) ;;;
  close ;;;
  emit PrintDone.

Definition fetch_and_load_weather (w : world) : M unit :=
  fetch_and_load_weather_on w Config.CITIES.

(** What the database holds once the process is over, whether the script
    returned or died on an exception: the committed tables. *)
Definition durable {A} (run : list event * conn * result A) : tables :=
  committed (snd (fst run)).

End EtlWeather.

(* ------------------------------------------------------------------ *)
(** ** etl_happiness.py *)

Module EtlHappiness.
Import Warehouse.
Local Open Scope db_scope.

(** One data row of [world_happiness_2024.csv], by the columns the loader
    renames: "Country name", "Ladder score" and the six "Explained by:"
    columns. An empty cell is read as a missing number. *)
Record csv_row := {
  country_name : string;
  ladder_score : num;
  gdp_per_capita : num;
  social_support : num;
  healthy_life_expectancy : num;
  freedom_to_make_choices : num;
  generosity : num;
  perceptions_of_corruption : num
}.

(** [df["region"] = None; df = df[cols]; tuple(row)]. *)
Definition to_country_row (r : csv_row) : country_row :=
  {| dc_country_name := country_name r;
     dc_region := None;
     dc_ladder_score := ladder_score r;
     dc_gdp_per_capita := gdp_per_capita r;
     dc_social_support := social_support r;
     dc_healthy_life_expectancy := healthy_life_expectancy r;
     dc_freedom_to_make_choices := freedom_to_make_choices r;
     dc_generosity := generosity r;
     dc_perceptions_of_corruption := perceptions_of_corruption r |}.

(** Which database calls fail: the [execute] of the row at a position, the
    final [commit]. *)
Record db_world := {
  execute_fails : nat -> bool;
  commit_fails : bool
}.

(** [cur.execute(insert_query, tuple(row))] for the row at position [i]. *)
Definition execute_country_upsert (w : db_world) (ir : nat * csv_row) : M unit :=
  fun k =>
    if execute_fails w (fst ir) then ([], k, Raised DbError)
    else
      let r := to_country_row (snd ir) in
      ([CountryUpsert r],
       {| committed := committed k;
          working := {| dim_country := upsert_country r (dim_country (working k));
                        dim_city := dim_city (working k);
                        fact_weather_snapshot := fact_weather_snapshot (working k) |};
          city_seq := city_seq k |},
       Ok tt).

Definition commit (w : db_world) : M unit :=
  fun k => if commit_fails w then ([], k, Raised DbError) else do_commit k.

(** [df.iterrows()]: the rows with their positions. *)
Definition iterrows (df : list csv_row) : list (nat * csv_row) :=
  combine (seq 0 (List.length df)) df.

(** [df.head()[['country_name', 'ladder_score']]]. *)
Definition head (df : list csv_row) : list (string * num) :=
  map (fun r => (country_name r, ladder_score r)) (firstn 5 df).

(** [load_happiness_data], on an open connection and the parsed CSV. *)
Definition load_happiness_data (w : db_world) (df : list csv_row) : M unit :=
  emit PrintOriginalColumns ;;;
  for_each (iterrows df) (execute_country_upsert w) ;;;
  commit w ;;;
  close ;;;
  emit (PrintLoadedCountries (List.length df)) ;;;
  emit (PrintTop5 (head df)).

(** *** The five highest ladder scores

    The reading of "the five highest [ladder_score] values" used to compare
    with what the loader prints: the first five rows of the frame sorted by
    descending score, rows of equal score in file order (pandas'
    [nlargest(5, ...)], as the report generator takes its own top five). A
    missing score ranks last. *)
Definition score_ltb (a b : num) : bool :=
  match a, b with
  | Some x, Some y => PrimFloat.ltb x y
  | None, Some _ => true
  | _, None => false
  end.

Fixpoint insert_desc (r : csv_row) (sorted : list csv_row) : list csv_row :=
  match sorted with
  | [] => [r]
  | r' :: rest =>
      if score_ltb (ladder_score r) (ladder_score r')
      then r' :: insert_desc r rest
      else r :: sorted
  end.

Definition sort_desc (df : list csv_row) : list csv_row :=
  fold_right insert_desc [] df.

Definition five_highest (df : list csv_row) : list (string * num) :=
  map (fun r => (country_name r, ladder_score r)) (firstn 5 (sort_desc df)).

(** No row has a lower score than the row after it. *)
Fixpoint descending (df : list csv_row) : bool :=
  match df with
  | r :: ((r' :: _) as rest) =>
      negb (score_ltb (ladder_score r) (ladder_score r')) && descending rest
  | _ => true
  end.

(** The database accepts every call. *)
Definition healthy (w : db_world) : Prop :=
  (forall i, execute_fails w i = false) /\ commit_fails w = false.

Definition is_country_upsert (e : event) : bool :=
  match e with
  | CountryUpsert _ => true
  | _ => false
  end.

Definition is_commit (e : event) : bool :=
  match e with
  | Commit => true
  | _ => false
  end.

(** *** A sample file: six countries in alphabetical order *)

Definition country (name : string) (score : float) : csv_row :=
  {| country_name := name;
     ladder_score := Some score;
     gdp_per_capita := Some 1.5%float;
     social_support := Some 1.25%float;
     healthy_life_expectancy := Some 0.5%float;
     freedom_to_make_choices := Some 0.75%float;
     generosity := Some 0.25%float;
     perceptions_of_corruption := Some 0.5%float |}.

Definition alphabetical_csv : list csv_row :=
  [ country "Denmark" 7.5%float; country "Finland" 7.75%float;
    country "Iceland" 7.25%float; country "Israel" 6.75%float;
    country "Netherlands" 6.5%float; country "Sweden" 7%float ].

Definition accepting : db_world :=
  {| execute_fails := fun _ => false; commit_fails := false |}.

End EtlHappiness.

(* ------------------------------------------------------------------ *)
(** ** generate_happiness_report.py: control flow *)

Module Report.
Import Warehouse.

(** A row of the joined query. *)
Record report_row := {
  happiness_score : float;
  temperature_celsius : float;
  country_name : string;
  city_name : string
}.

Inductive query_outcome :=
| QueryDbError                     (* [psycopg2.Error] inside [fetch_data] *)
| Frame (df : list report_row).

(** The numeric and plotting libraries are opaque here: the world says what
    the query returns and which of the later library calls raise. *)
Record world := {
  read_sql : query_outcome;
  pearsonr_raises : bool;
  main_visualization_raises : bool;
  distribution_plots_raises : bool;
  insights_raises : bool
}.

(** What a run leaves on the terminal and on disk. *)
Inductive output :=
| MakeDirs
| PrintBanner
| PrintLoadedRecords (n : nat)
| PrintStatistics
| SaveFig (name : string)
| PrintInsights
| WriteFile (name : string)
| PrintComplete
| PrintError (e : exn).

Definition R (A : Type) : Type := list output * result A.

Definition ret {A} (a : A) : R A := ([], Ok a).
Definition raise {A} (e : exn) : R A := ([], Raised e).
Definition out (o : output) : R unit := ([o], Ok tt).

Definition bind {A B} (m : R A) (f : A -> R B) : R B :=
  match m with
  | (o1, Ok a) => match f a with (o2, r) => (o1 ++ o2, r) end
  | (o1, Raised e) => (o1, Raised e)
  end.

Notation "x <-- m ;; f" := (bind m (fun x => f))
  (at level 61, m at next level, right associativity).
Notation "m ;;, f" := (bind m (fun _ => f))
  (at level 61, right associativity).

Definition may_raise (b : bool) : R unit :=
  if b then raise ValueError else ret tt.

(** [fetch_data]: a database error is re-raised as [ConnectionError], an
    empty frame raises [ValueError]. *)
Definition fetch_data (w : world) : R (list report_row) :=
  match read_sql w with
  | QueryDbError => raise ConnectionError
  | Frame df =>
      match df with
      | [] => raise ValueError
      | _ => out (PrintLoadedRecords (List.length df)) ;;, ret df
      end
  end.

(** [calculate_statistics]: [None] on an empty frame. *)
Definition calculate_statistics (w : world) (df : list report_row)
  : R (option unit) :=
  match df with
  | [] => ret None
  | _ => may_raise (pearsonr_raises w) ;;, out PrintStatistics ;;, ret (Some tt)
  end.

(** [create_main_visualization]: subscripting a [None] statistics summary
    raises before anything is saved. *)
Definition create_main_visualization (w : world) (stats_summary : option unit)
  : R unit :=
  may_raise (main_visualization_raises w) ;;,
  match stats_summary with
  | None => raise TypeError
  | Some _ => out (SaveFig "happiness_vs_temperature_global.png")
  end.

Definition create_distribution_plots (w : world) : R unit :=
  may_raise (distribution_plots_raises w) ;;,
  out (SaveFig "happiness_distributions.png").

Definition generate_insights (w : world) : R unit :=
  may_raise (insights_raises w).

(** The body of the [try] of [generate_report]. *)
Definition generate_report_body (w : world) : R unit :=
  out PrintBanner ;;,
  df <-- fetch_data w ;;
  stats_summary <-- calculate_statistics w df ;;
  create_main_visualization w stats_summary ;;,
  create_distribution_plots w ;;,
  generate_insights w ;;,
  out PrintInsights ;;,
  out (WriteFile "report_insights.txt") ;;,
  out PrintComplete.

(** [generate_report]: [except Exception] prints and re-raises. *)
Definition generate_report (w : world) : R unit :=
  match generate_report_body w with
  | (o, Raised e) => (o ++ [PrintError e], Raised e)
  | done => done
  end.

(** [main]: the constructor creates the output directory, then the report
    runs. *)
Definition main (w : world) : R unit :=
  out MakeDirs ;;, generate_report w.

(** The chart images and the insights file among the outputs. *)
Definition is_file (o : output) : bool :=
  match o with
  | SaveFig _ | WriteFile _ => true
  | _ => false
  end.

Definition files_written (run : R unit) : list output :=
  filter is_file (fst run).

End Report.

(* ------------------------------------------------------------------ *)
(** ** Vocabulary of the statements *)

Module Props.
Import Warehouse EtlWeather.

Definition events_of {A} (run : list event * conn * result A) : list event :=
  fst (fst run).
Definition state_of {A} (run : list event * conn * result A) : conn :=
  snd (fst run).
Definition result_of {A} (run : list event * conn * result A) : result A :=
  snd run.

(** [run] with the events [ev] in front. *)
Definition after_events {A} (ev : list event)
           (run : list event * conn * result A) : list event * conn * result A :=
  (ev ++ events_of run, state_of run, result_of run).

(** Statements sent to the database. *)
Definition is_statement (e : event) : bool :=
  match e with
  | CityUpsert _ _ _ | SnapshotInsert _ | CountryUpsert _ => true
  | _ => false
  end.

Definition is_snapshot_insert (e : event) : bool :=
  match e with
  | SnapshotInsert _ => true
  | _ => false
  end.

Definition is_commit (e : event) : bool :=
  match e with
  | Commit => true
  | _ => false
  end.

(** *** The loop body in normal form *)

(** The loop goes past [if not lat or not lon: continue]. *)
Definition geocoded (w : world) (city : string) : bool :=
  let '(_, (la, lo)) := fetch_coordinates w city in
  Py.truthy la && Py.truthy lo.

Definition geo_log (w : world) (city : string) : list event :=
  fst (fetch_coordinates w city).

(** What the forecast request of a city leads to once the city row has the
    id [city_id]: an exception, nothing to insert (status other than 200), or
    the snapshot row to insert. *)
Definition forecast_row (w : world) (city : string) (city_id : Z)
  : result (option snapshot_row) :=
  match forecast w city with
  | ForecastRaises => Raised RequestException
  | ForecastReply status body =>
      if status =? 200 then
        match body with
        | NotJson => Raised JSONDecodeError
        | NotAnObject => Raised TypeError
        | NoCurrent => Raised (KeyError "current")
        | Current data =>
            match weather_code data with
            | None => Raised (KeyError "weather_code")
            | Some CodeNotNumber => Raised TypeError
            | Some (CodeInt code) =>
            match WeatherCode.weather_main code with
            | None => Raised IndexError
            | Some main =>
            match temperature_2m data with
            | None => Raised (KeyError "temperature_2m")
            | Some temperature =>
            match apparent_temperature data with
            | None => Raised (KeyError "apparent_temperature")
            | Some feels_like =>
            match relative_humidity_2m data with
            | None => Raised (KeyError "relative_humidity_2m")
            | Some humidity =>
            match wind_speed_10m data with
            | None => Raised (KeyError "wind_speed_10m")
            | Some wind_speed =>
                Ok (Some {| fw_city_id := city_id;
                            fw_temperature_celsius := temperature;
                            fw_feels_like_celsius := feels_like;
                            fw_humidity_percent := humidity;
                            fw_weather_main := main;
                            fw_weather_description := WeatherCode.weather_desc code;
                            fw_wind_speed_mps := wind_speed;
                            fw_fetch_date := db_now w city |})
            end end end end end end
        end
      else Ok None
  end.

Definition with_dim_city (rows : list city_row) (t : tables) : tables :=
  {| dim_country := dim_country t;
     dim_city := rows;
     fact_weather_snapshot := fact_weather_snapshot t |}.

Definition with_snapshots (rows : list snapshot_row) (t : tables) : tables :=
  {| dim_country := dim_country t;
     dim_city := dim_city t;
     fact_weather_snapshot := rows |}.

(** The connection after the city upsert went through, and the id it returned. *)
Definition upserted (city : string) (k : conn) : conn :=
  {| committed := committed k;
     working := with_dim_city
                  (fst (upsert_city (city_seq k) city (country_of city)
                                    (dim_city (working k))))
                  (working k);
     city_seq := city_seq k + 1 |}.

Definition upsert_id (city : string) (k : conn) : Z :=
  snd (upsert_city (city_seq k) city (country_of city) (dim_city (working k))).

(** The connection after the snapshot insert went through. *)
Definition inserted (r : snapshot_row) (k : conn) : conn :=
  {| committed := committed k;
     working := with_snapshots
                  (insert_snapshot r (fact_weather_snapshot (working k)))
                  (working k);
     city_seq := city_seq k |}.

Definition committed_all (k : conn) : conn :=
  {| committed := working k; working := working k; city_seq := city_seq k |}.

Definition rolled_back (k : conn) : conn :=
  {| committed := committed k; working := committed k; city_seq := city_seq k |}.

(** The handler after the events [ev] in the state [k]: the rollback, then
    the log line; a rollback that fails raises out of the iteration. *)
Definition handled (w : world) (city : string) (ev : list event) (k : conn)
  : list event * conn * result unit :=
  if db_fails w city OpRollback
  then (ev, rolled_back k, Raised DbError)
  else (ev ++ [Rollback; LogError city], rolled_back k, Ok tt).

(** One iteration, path by path. *)
Definition process_city_flat (w : world) (city : string) (k : conn)
  : list event * conn * result unit :=
  if negb (geocoded w city) then (geo_log w city, k, Ok tt)
  else if db_fails w city OpCityUpsert
  then handled w city (geo_log w city) k
  else
    let k1 := upserted city k in
    let up := CityUpsert city (country_of city) (upsert_id city k) in
    match forecast_row w city (upsert_id city k) with
    | Raised e => (geo_log w city ++ [up], k1, Raised e)
    | Ok None => (geo_log w city ++ [up], k1, Ok tt)
    | Ok (Some r) =>
        if db_fails w city OpSnapshotInsert
        then handled w city (geo_log w city ++ [up]) k1
        else if db_fails w city OpCommit
        then handled w city (geo_log w city ++ [up; SnapshotInsert r])
                     (inserted r k1)
        else (geo_log w city ++
                [up; SnapshotInsert r; Commit;
                 PrintLoaded city (country_of city) (fw_temperature_celsius r)],
              committed_all (inserted r k1), Ok tt)
    end.

(** *** Table predicates *)

Definition key_of (r : city_row) : Z * string :=
  (dcity_city_id r, dcity_city_name r).

Definition keys (t : tables) : list (Z * string) := map key_of (dim_city t).
Definition ids (t : tables) : list Z := map dcity_city_id (dim_city t).
Definition names (t : tables) : list string := map dcity_city_name (dim_city t).




(** Every snapshot has its parent city row. *)
Definition has_parent (t : tables) (s : snapshot_row) : Prop :=
  In (fw_city_id s) (ids t).

Definition referential (t : tables) : Prop :=
  Forall (has_parent t) (fact_weather_snapshot t).

(** Well-formed tables under a sequence value: parents exist, ids were all
    generated already, names and ids are unique. *)
Record well_formed (seq : Z) (t : tables) : Prop := {
  wf_referential : referential t;
  wf_below : Forall (fun i => i < seq) (ids t);
  wf_names : NoDup (names t);
  wf_ids : NoDup (ids t)
}.

Definition consistent (k : conn) : Prop :=
  well_formed (city_seq k) (committed k) /\ well_formed (city_seq k) (working k).

(** [t'] keeps every city row (by id and name) and every snapshot of [t]. *)
Definition extends (t t' : tables) : Prop :=
  incl (keys t) (keys t') /\
  incl (fact_weather_snapshot t) (fact_weather_snapshot t').

(** The states the weather loader can put a fresh warehouse in: after any
    number of runs, iterations and abandoned runs, under any behaviour of
    the services. *)
Inductive reachable : conn -> Prop :=
| reach_fresh : reachable fresh_warehouse
| reach_city (w : world) (city : string) (k : conn) :
    reachable k -> reachable (state_of (process_city w city k))
| reach_close (k : conn) :
    reachable k -> reachable (state_of (close k)).

(** Every snapshot insert among the events follows, in the same open
    transaction, an upsert of [city] that returned the snapshot's city id.
    [pending] holds the ids returned to upserts of [city] since the last
    commit, rollback or close. *)
Fixpoint parent_upserted (city : string) (pending : list Z) (ev : list event)
  : bool :=
  match ev with
  | [] => true
  | CityUpsert c _ id :: ev' =>
      parent_upserted city (if String.eqb c city then id :: pending else pending) ev'
  | SnapshotInsert r :: ev' =>
      existsb (Z.eqb (fw_city_id r)) pending && parent_upserted city pending ev'
  | Commit :: ev' | Rollback :: ev' | Close :: ev' => parent_upserted city [] ev'
  | _ :: ev' => parent_upserted city pending ev'
  end.



(** No name occurs twice in a city list. *)
Fixpoint distinct (l : list string) : bool :=
  match l with
  | [] => true
  | x :: l' => negb (existsb (String.eqb x) l') && distinct l'
  end.

(** *** World predicates *)

(** Some field the loop reads is missing from a forecast body. *)
Definition missing_fields (body : forecast_body) : bool :=
  match body with
  | NotJson | NotAnObject => false
  | NoCurrent => true
  | Current data =>
      match weather_code data, temperature_2m data, apparent_temperature data,
            relative_humidity_2m data, wind_speed_10m data with
      | Some _, Some _, Some _, Some _, Some _ => false
      | _, _, _, _, _ => true
      end
  end.

(** The body is an object whose "current" member has an integer code. *)
Definition integer_code (body : forecast_body) : bool :=
  match body with
  | Current data =>
      match weather_code data with
      | Some (CodeInt _) => true
      | _ => false
      end
  | _ => false
  end.

(** The forecast of a city is a 200 response with every field, the code an
    integer. *)
Definition forecast_complete (w : world) (city : string) : bool :=
  match forecast w city with
  | ForecastReply status body =>
      (status =? 200) && negb (missing_fields body) && integer_code body
  | ForecastRaises => false
  end.

Definition db_healthy (w : world) (city : string) : bool :=
  negb (db_fails w city OpCityUpsert)
  && negb (db_fails w city OpSnapshotInsert)
  && negb (db_fails w city OpCommit).

(** A database call of this city's iteration fails: the upsert, or, when
    the forecast is complete, the insert or the commit. *)
Definition db_error_occurs (w : world) (city : string) : bool :=
  db_fails w city OpCityUpsert
  || (forecast_complete w city
      && (db_fails w city OpSnapshotInsert || db_fails w city OpCommit)).

(** Geocoding, forecast and every database call work for the city. *)
Definition city_loads (w : world) (city : string) : bool :=
  geocoded w city && forecast_complete w city && db_healthy w city.

End Props.

(* ------------------------------------------------------------------ *)
(** ** Sample behaviours of the services *)

Module Examples.
Import Warehouse EtlWeather.

Definition nairobi : string := "Nairobi,Kenya".
Definition mombasa : string := "Mombasa,Kenya".
Definition kisumu : string := "Kisumu,Kenya".
Definition eldoret : string := "Eldoret,Kenya".

Definition somewhere : geo_item :=
  {| lat := Some (-1.25)%float; lon := Some 36.75%float |}.

Definition clear_sky : current_weather :=
  {| weather_code := Some (CodeInt 0);
     temperature_2m := Some (Some 21.5%float);
     apparent_temperature := Some (Some 20.5%float);
     relative_humidity_2m := Some (Some 60%float);
     wind_speed_10m := Some (Some 3.5%float) |}.

(** The same forecast without its ["weather_code"] field. *)
Definition no_weather_code : current_weather :=
  {| weather_code := None;
     temperature_2m := temperature_2m clear_sky;
     apparent_temperature := apparent_temperature clear_sky;
     relative_humidity_2m := relative_humidity_2m clear_sky;
     wind_speed_10m := wind_speed_10m clear_sky |}.

(** Every service answers and the database accepts every call. *)
Definition fair_world : world :=
  {| geocode := fun _ => GeoReply 200 (GeoArray [somewhere]);
     forecast := fun _ => ForecastReply 200 (Current clear_sky);
     db_fails := fun _ _ => false;
     db_now := fun _ => 1762214400 |}.

(** [fair_world], except for what the geocoder answers about Mombasa. *)
Definition geocoding_mombasa (answer : geo_response) : world :=
  {| geocode := fun city =>
       if String.eqb city mombasa then answer else geocode fair_world city;
     forecast := forecast fair_world;
     db_fails := db_fails fair_world;
     db_now := db_now fair_world |}.

(** [fair_world], except for the forecast of Mombasa. *)
Definition forecasting_mombasa (answer : forecast_response) : world :=
  {| geocode := geocode fair_world;
     forecast := fun city =>
       if String.eqb city mombasa then answer else forecast fair_world city;
     db_fails := db_fails fair_world;
     db_now := db_now fair_world |}.

(** [fair_world], except that one database call fails for Mombasa. *)
Definition failing_mombasa (op : db_op) : world :=
  {| geocode := geocode fair_world;
     forecast := forecast fair_world;
     db_fails := fun city op' =>
       String.eqb city mombasa &&
       match op, op' with
       | OpCityUpsert, OpCityUpsert
       | OpSnapshotInsert, OpSnapshotInsert
       | OpCommit, OpCommit
       | OpRollback, OpRollback => true
       | _, _ => false
       end;
     db_now := db_now fair_world |}.

(** Mombasa's forecast is a 200 response that lacks ["weather_code"]. *)
Definition incomplete_forecast_world : world :=
  forecasting_mombasa (ForecastReply 200 (Current no_weather_code)).

(** Mombasa's forecast is refused with status 503. *)
Definition unavailable_forecast_world : world :=
  forecasting_mombasa (ForecastReply 503 NoCurrent).

(** Mombasa's forecast is refused with status 503 and the database refuses
    the upsert of Kisumu. *)
Definition pending_then_failing : world :=
  {| geocode := geocode fair_world;
     forecast := forecast unavailable_forecast_world;
     db_fails := fun city op =>
       String.eqb city kisumu &&
       match op with
       | OpCityUpsert => true
       | _ => false
       end;
     db_now := db_now fair_world |}.

(** The connection is lost when Mombasa's turn comes: every database call of
    its iteration fails, the rollback of the handler included. *)
Definition lost_connection_world : world :=
  {| geocode := geocode fair_world;
     forecast := forecast fair_world;
     db_fails := fun city _ => String.eqb city mombasa;
     db_now := db_now fair_world |}.

(** The warehouse after Nairobi was loaded. *)
Definition after_nairobi : conn :=
  Props.state_of (process_city fair_world nairobi fresh_warehouse).

End Examples.

(* ------------------------------------------------------------------ *)
(** ** run_etl.py *)

Module RunEtl.
Import Warehouse.

(** What the combined runner prints itself, around the events of the two
    loaders. *)
Inductive output :=
| PrintStarting
| Script (e : event)
| PrintCompleted.

(** [run_etl.py]: the happiness loader, then the weather loader, each on a
    connection of its own to the same database; an exception of the first
    ends the process before the second starts. *)
Definition run_etl (hw : EtlHappiness.db_world) (df : list EtlHappiness.csv_row)
           (w : EtlWeather.world) (cities : list string) (k : conn)
  : list output * conn * result unit :=
  match EtlHappiness.load_happiness_data hw df k with
  | (ev1, k1, Ok _) =>
      match EtlWeather.fetch_and_load_weather_on w cities
              (connect (committed k1) (city_seq k1)) with
      | (ev2, k2, Ok _) =>
          (PrintStarting :: map Script (ev1 ++ ev2) ++ [PrintCompleted], k2, Ok tt)
      | (ev2, k2, Raised e) =>
          (PrintStarting :: map Script (ev1 ++ ev2), k2, Raised e)
      end
  | (ev1, k1, Raised e) => (PrintStarting :: map Script ev1, k1, Raised e)
  end.

End RunEtl.

(* ------------------------------------------------------------------ *)
(** ** Further vocabulary *)

Module Queries.
Import Warehouse EtlWeather.

(** The character occurs in the string. *)
Fixpoint contains (c : ascii) (s : string) : bool :=
  match s with
  | EmptyString => false
  | String c' s' => Ascii.eqb c' c || contains c s'
  end.

(** The UTF-8 encoding of U+00A0, a white space character outside ASCII. *)
Definition no_break_space : string :=
  String (Ascii.ascii_of_nat 194) (String (Ascii.ascii_of_nat 160) EmptyString).

(** The values [weather_main] can take. *)
Definition categories : list string :=
  [ "Clouds"; "Clear"; "Fog"; "Depositing"; "Light"; "Rain"; "Snow";
    "Thunderstorm"; "Weather" ].

(** The keys the loop reads from a forecast. *)
Definition forecast_keys : list string :=
  [ "current"; "weather_code"; "temperature_2m"; "apparent_temperature";
    "relative_humidity_2m"; "wind_speed_10m" ].

(** The exceptions of the forecast step, by what the service answered. *)
Definition forecast_failure (w : world) (city : string) (e : exn) : Prop :=
  (forecast w city = ForecastRaises /\ e = RequestException)
  \/ (forecast w city = ForecastReply 200 NotJson /\ e = JSONDecodeError)
  \/ (e = TypeError
      /\ (forecast w city = ForecastReply 200 NotAnObject
          \/ exists data,
               forecast w city = ForecastReply 200 (Current data)
               /\ weather_code data = Some CodeNotNumber))
  \/ (exists body key,
         forecast w city = ForecastReply 200 body
         /\ Props.missing_fields body = true
         /\ e = KeyError key /\ In key forecast_keys).

Definition is_city_upsert (e : event) : bool :=
  match e with
  | CityUpsert _ _ _ => true
  | _ => false
  end.

Definition is_rollback (e : event) : bool :=
  match e with
  | Rollback => true
  | _ => false
  end.

Definition is_close (e : event) : bool :=
  match e with
  | Close => true
  | _ => false
  end.

(** SELECT of a country by its unique name. *)
Fixpoint find_country (name : string) (rows : list country_row)
  : option country_row :=
  match rows with
  | [] => None
  | r :: rows' =>
      if String.eqb (dc_country_name r) name then Some r
      else find_country name rows'
  end.

(** [dim_country] after the upserts of a frame, in file order. *)
Definition upsert_all (df : list EtlHappiness.csv_row)
           (rows : list country_row) : list country_row :=
  fold_left (fun t r => upsert_country (EtlHappiness.to_country_row r) t) df rows.

(** The position of the first row whose [execute] fails, counting from
    [start]. *)
Fixpoint first_failure (fails : nat -> bool) (start n : nat) : option nat :=
  match n with
  | O => None
  | S n' => if fails start then Some start
            else first_failure fails (S start) n'
  end.

(** A frame sorted by descending score. *)
Definition ranked_csv : list EtlHappiness.csv_row :=
  [ EtlHappiness.country "Finland" 7.75%float;
    EtlHappiness.country "Denmark" 7.5%float;
    EtlHappiness.country "Iceland" 7.25%float;
    EtlHappiness.country "Sweden" 7%float;
    EtlHappiness.country "Israel" 6.75%float;
    EtlHappiness.country "Netherlands" 6.5%float ].

(** The database refuses the [execute] of the row at position 2. *)
Definition refusing_third : EtlHappiness.db_world :=
  {| EtlHappiness.execute_fails := fun i => Nat.eqb i 2;
     EtlHappiness.commit_fails := false |}.

(** The three files of a report, in the order they are written. *)
Definition report_files : list Report.output :=
  [ Report.SaveFig "happiness_vs_temperature_global.png";
    Report.SaveFig "happiness_distributions.png";
    Report.WriteFile "report_insights.txt" ].

(** [l1] is an initial segment of [l2]. *)
Fixpoint prefix_of {A} (eqb : A -> A -> bool) (l1 l2 : list A) : bool :=
  match l1, l2 with
  | [], _ => true
  | x :: l1', y :: l2' => eqb x y && prefix_of eqb l1' l2'
  | _ :: _, [] => false
  end.

Definition same_file (a b : Report.output) : bool :=
  match a, b with
  | Report.SaveFig x, Report.SaveFig y => String.eqb x y
  | Report.WriteFile x, Report.WriteFile y => String.eqb x y
  | _, _ => false
  end.

End Queries.

(* ------------------------------------------------------------------ *)
(** * Properties *)

(** ** Weather codes *)

Module WeatherCodeFacts.
Import WeatherCode.

Lemma split_ws_weather_code (rest : string) :
  hd_error (Py.split_ws ("Weather code " ++ rest)%string) = Some "Weather".
Proof. reflexivity. Qed.

Lemma unmapped_desc (code : Z) :
  mapped code = false ->
  weather_desc code = ("Weather code " ++ Py.str_of_int code)%string.
Proof.
  unfold mapped, weather_desc, descriptions; cbn [Py.dict_mem Py.dict_get].
  intros H.
  repeat match goal with
         | |- context [?k =? code] =>
             destruct (k =? code) eqn:?; [cbn in H; discriminate H|]
         end.
  reflexivity.
Qed.

Lemma mapped_desc (code : Z) (d : string) :
  In (code, d) descriptions -> weather_desc code = d.
Proof.
  unfold descriptions; cbn [In]; intros H.
  repeat (destruct H as [H|H]; [injection H as <- <-; reflexivity|]).
  contradiction.
Qed.

Lemma mapped_in (code : Z) :
  mapped code = true -> In (code, weather_desc code) descriptions.
Proof.
  unfold mapped, weather_desc, descriptions; cbn [Py.dict_mem Py.dict_get].
  intros H.
  repeat match goal with
         | |- context [?k =? code] =>
             let E := fresh "E" in
             destruct (k =? code) eqn:E;
             [apply Z.eqb_eq in E; subst code; cbn; tauto|]
         end.
  cbn in H; discriminate H.
Qed.

(** Outside [1,3] the first word of the description is never "Clouds". *)
Lemma first_word_not_clouds (code : Z) :
  hd_error (Py.split_ws (weather_desc code)) <> Some "Clouds"
  /\ exists m, hd_error (Py.split_ws (weather_desc code)) = Some m.
Proof.
  destruct (mapped code) eqn:Hm.
  - apply mapped_in in Hm. revert Hm.
    generalize (weather_desc code); intros d.
    unfold descriptions; cbn [In]; intros H.
    repeat (destruct H as [H|H];
            [injection H as _ <-; split; [discriminate|eexists; reflexivity]|]).
    contradiction.
  - rewrite (unmapped_desc _ Hm), split_ws_weather_code.
    split; [discriminate|eexists; reflexivity].
Qed.

(** C3. For every integer weather code the description is the entry of the
    fixed table when the code is mapped and exactly "Weather code N"
    otherwise; the category is "Clouds" exactly for the codes 1 to 3 and the
    first word of the description for every other code (which always
    exists); codes 1, 2, 3 give "Clouds", code 0 gives "Clear", and code 999
    gives the description "Weather code 999" with category "Weather". *)
Theorem weather_code_description_and_category :
  forall code : Z,
    (forall d, In (code, d) descriptions -> weather_desc code = d)
    /\ (mapped code = true -> In (code, weather_desc code) descriptions)
    /\ (mapped code = false ->
        weather_desc code = ("Weather code " ++ Py.str_of_int code)%string)
    /\ (weather_main code = Some "Clouds" <-> 1 <= code <= 3)
    /\ (~ (1 <= code <= 3) ->
        weather_main code = hd_error (Py.split_ws (weather_desc code))
        /\ exists m, weather_main code = Some m)
    /\ weather_main 1 = Some "Clouds"
    /\ weather_main 2 = Some "Clouds"
    /\ weather_main 3 = Some "Clouds"
    /\ weather_desc 0 = "Clear sky"
    /\ weather_main 0 = Some "Clear"
    /\ weather_desc 999 = "Weather code 999"
    /\ weather_main 999 = Some "Weather".
Proof.
  intros code.
  split; [apply mapped_desc|].
  split; [apply mapped_in|].
  split; [apply unmapped_desc|].
  assert (Hout : ~ (1 <= code <= 3) ->
                 weather_main code = hd_error (Py.split_ws (weather_desc code))).
  { intros Hr. unfold weather_main.
    destruct ((1 <=? code) && (code <=? 3)) eqn:E; [|reflexivity].
    apply andb_true_iff in E. destruct E as [E1 E2].
    apply Z.leb_le in E1. apply Z.leb_le in E2. lia. }
  split.
  { split.
    - intros H. destruct (Z_le_dec 1 code) as [H1|H1];
        [destruct (Z_le_dec code 3) as [H3|H3]; [lia|]|].
      + rewrite Hout in H by lia.
        destruct (first_word_not_clouds code) as [Hn _]. contradiction.
      + rewrite Hout in H by lia.
        destruct (first_word_not_clouds code) as [Hn _]. contradiction.
    - intros [H1 H3]. unfold weather_main.
      apply Z.leb_le in H1. apply Z.leb_le in H3. rewrite H1, H3. reflexivity. }
  split.
  { intros Hr. split; [apply Hout, Hr|].
    rewrite (Hout Hr). apply first_word_not_clouds. }
  repeat split.
Qed.

End WeatherCodeFacts.

(* ------------------------------------------------------------------ *)
(** ** The statements on the tables *)

Module TableFacts.
Import Warehouse EtlWeather Props.

Lemma find_city_some (name : string) (rows : list city_row) (r : city_row) :
  find_city name rows = Some r -> In r rows /\ dcity_city_name r = name.
Proof.
  induction rows as [|r' rows IH]; cbn; [discriminate|].
  destruct (String.eqb_spec (dcity_city_name r') name) as [E|E].
  - intros H; injection H as <-. auto.
  - intros H. destruct (IH H). auto.
Qed.

Lemma find_city_none (name : string) (rows : list city_row) :
  find_city name rows = None -> ~ In name (map dcity_city_name rows).
Proof.
  induction rows as [|r' rows IH]; cbn; [tauto|].
  destruct (String.eqb_spec (dcity_city_name r') name) as [E|E];
    [discriminate|].
  intros H [H'|H']; [contradiction|]. exact (IH H H').
Qed.

Lemma set_country_keys (name country : string) (rows : list city_row) :
  map key_of (set_country name country rows) = map key_of rows.
Proof.
  induction rows as [|r rows IH]; cbn; [reflexivity|].
  destruct (String.eqb (dcity_city_name r) name); cbn; [reflexivity|].
  now rewrite IH.
Qed.

(** The upsert either finds the name and leaves ids and names as they are,
    or appends the name under the proposed id. *)
Lemma upsert_city_keys (fresh : Z) (name country : string)
      (rows : list city_row) :
  let u := upsert_city fresh name country rows in
  (In (snd u, name) (map key_of rows) /\ map key_of (fst u) = map key_of rows)
  \/ (~ In name (map dcity_city_name rows) /\ snd u = fresh
      /\ map key_of (fst u) = map key_of rows ++ [(fresh, name)]).
Proof.
  unfold upsert_city.
  destruct (find_city name rows) as [r|] eqn:E; cbn [fst snd].
  - left. apply find_city_some in E. destruct E as [Hin Hn]. split.
    + rewrite <- Hn. change (In (key_of r) (map key_of rows)).
      now apply in_map.
    + apply set_country_keys.
  - right. split; [now apply find_city_none|]. split; [reflexivity|].
    now rewrite map_app.
Qed.

Lemma ids_keys (t : tables) : ids t = map fst (keys t).
Proof. unfold ids, keys. rewrite map_map. reflexivity. Qed.

Lemma names_keys (t : tables) : names t = map snd (keys t).
Proof. unfold names, keys. rewrite map_map. reflexivity. Qed.

Lemma key_in_ids (t : tables) (i : Z) (n : string) :
  In (i, n) (keys t) -> In i (ids t).
Proof. rewrite ids_keys. intros H. apply (in_map fst) in H. exact H. Qed.






Lemma insert_snapshot_cases (r : snapshot_row) (rows : list snapshot_row) :
  insert_snapshot r rows = rows \/ insert_snapshot r rows = rows ++ [r].
Proof. unfold insert_snapshot. destruct (existsb (same_key r) rows); auto. Qed.


(** ON CONFLICT DO NOTHING: a row whose conflict key is stored changes
    nothing. *)
Lemma insert_snapshot_conflict (r s : snapshot_row) (rows : list snapshot_row) :
  In s rows -> snapshot_key s = snapshot_key r ->
  insert_snapshot r rows = rows.
Proof.
  intros Hin Hk. unfold insert_snapshot.
  destruct (existsb (same_key r) rows) eqn:E; [reflexivity|].
  assert (H : existsb (same_key r) rows = true).
  { apply existsb_exists. exists s. split; [exact Hin|].
    unfold same_key. rewrite Hk, !Z.eqb_refl. reflexivity. }
  congruence.
Qed.

Lemma NoDup_snoc {A} (l : list A) (x : A) :
  NoDup l -> ~ In x l -> NoDup (l ++ [x]).
Proof.
  induction l as [|a l IH]; cbn; intros Hnd Hx.
  - constructor; [tauto|constructor].
  - inversion Hnd as [|? ? Ha Hl]; subst. constructor.
    + rewrite in_app_iff. cbn. intros [H|[H|[]]]; [contradiction|].
      apply Hx. now left.
    + apply IH; [exact Hl|]. intros H. apply Hx. now right.
Qed.

Lemma keys_with_dim_city (rows : list city_row) (t : tables) :
  keys (with_dim_city rows t) = map key_of rows.
Proof. reflexivity. Qed.

(** Well-formedness only looks at the keys and the snapshots. *)
Lemma well_formed_same_keys (seq : Z) (t t' : tables) :
  keys t' = keys t ->
  fact_weather_snapshot t' = fact_weather_snapshot t ->
  well_formed seq t -> well_formed seq t'.
Proof.
  intros Hk Hf [Hr Hb Hn Hi].
  split; unfold referential, has_parent in *;
    rewrite ?ids_keys, ?names_keys, ?Hk, ?Hf, <- ?ids_keys, <- ?names_keys;
    assumption.
Qed.

Lemma well_formed_seq_mono (seq seq' : Z) (t : tables) :
  seq <= seq' -> well_formed seq t -> well_formed seq' t.
Proof.
  intros Hle [Hr Hb Hn Hi]. split; try assumption.
  eapply Forall_impl; [|exact Hb]. cbn. intros i Hi'. lia.
Qed.

Lemma well_formed_upsert (seq : Z) (city country : string) (t : tables) :
  well_formed seq t ->
  well_formed (seq + 1)
    (with_dim_city (fst (upsert_city seq city country (dim_city t))) t).
Proof.
  intros Hwf.
  destruct (upsert_city_keys seq city country (dim_city t)) as [[_ Hk]|[Hn [_ Hk]]].
  - apply well_formed_seq_mono with (seq := seq); [lia|].
    apply well_formed_same_keys with (t := t); auto.
  - destruct Hwf as [Hr Hb Hnd Hid].
    assert (Hids : ids (with_dim_city
                          (fst (upsert_city seq city country (dim_city t))) t)
                   = ids t ++ [seq]).
    { rewrite !ids_keys, keys_with_dim_city, Hk, map_app. reflexivity. }
    assert (Hnames : names (with_dim_city
                          (fst (upsert_city seq city country (dim_city t))) t)
                   = names t ++ [city]).
    { rewrite !names_keys, keys_with_dim_city, Hk, map_app. reflexivity. }
    split.
    + unfold referential, has_parent in *. rewrite Hids. cbn.
      eapply Forall_impl; [|exact Hr]. cbn. intros s Hs.
      apply in_or_app. now left.
    + rewrite Hids. apply Forall_app. split.
      * eapply Forall_impl; [|exact Hb]. cbn. intros i Hi. lia.
      * constructor; [lia|constructor].
    + rewrite Hnames. now apply NoDup_snoc.
    + rewrite Hids. apply NoDup_snoc; [exact Hid|].
      intros Hin. rewrite Forall_forall in Hb. apply Hb in Hin. lia.
Qed.

Lemma well_formed_insert (seq : Z) (r : snapshot_row) (t : tables) :
  well_formed seq t -> In (fw_city_id r) (ids t) ->
  well_formed seq
    (with_snapshots (insert_snapshot r (fact_weather_snapshot t)) t).
Proof.
  intros [Hr Hb Hn Hi] Hin. split; try assumption.
  unfold referential in *. cbn.
  destruct (insert_snapshot_cases r (fact_weather_snapshot t)) as [E|E];
    rewrite E; [exact Hr|].
  apply Forall_app. split; [exact Hr|].
  constructor; [exact Hin|constructor].
Qed.

(** The id the upsert returns is the id of the row of that name. *)
Lemma upsert_id_key (city : string) (k : conn) :
  In (upsert_id city k, city) (keys (working (upserted city k))).
Proof.
  unfold upsert_id, upserted; cbn [working]. rewrite keys_with_dim_city.
  destruct (upsert_city_keys (city_seq k) city (country_of city)
                             (dim_city (working k))) as [[Hin Hk]|[_ [Hid Hk]]];
    rewrite Hk.
  - exact Hin.
  - rewrite Hid. apply in_or_app. right. now left.
Qed.


(** *** Rows of one city under the statements of another *)

Lemma names_with_dim_city (rows : list city_row) (t : tables) :
  names (with_dim_city rows t) = map dcity_city_name rows.
Proof. reflexivity. Qed.







Lemma same_key_spec (r s : snapshot_row) :
  same_key r s = true <-> snapshot_key r = snapshot_key s.
Proof.
  unfold same_key. rewrite andb_true_iff, !Z.eqb_eq.
  destruct (snapshot_key r), (snapshot_key s); cbn.
  split; [intros [-> ->]; reflexivity|intros H; injection H; auto].
Qed.

(** After an insert a row with the inserted conflict key is stored. *)
Lemma insert_snapshot_key_stored (r : snapshot_row) (rows : list snapshot_row) :
  exists s, In s (insert_snapshot r rows) /\ snapshot_key s = snapshot_key r.
Proof.
  unfold insert_snapshot.
  destruct (existsb (same_key r) rows) eqn:E.
  - apply existsb_exists in E. destruct E as [s [Hin Hk]].
    apply same_key_spec in Hk. exists s. auto.
  - exists r. split; [|reflexivity]. apply in_or_app. right. now left.
Qed.


Lemma distinct_NoDup (l : list string) : distinct l = true -> NoDup l.
Proof.
  induction l as [|x l IH]; cbn; [constructor|].
  intros H. apply andb_true_iff in H. destruct H as [Hx Hl].
  constructor; [|now apply IH].
  intros Hin. apply negb_true_iff in Hx.
  assert (H : existsb (String.eqb x) l = true).
  { apply existsb_exists. exists x. split; [exact Hin|apply String.eqb_refl]. }
  congruence.
Qed.

End TableFacts.

(* ------------------------------------------------------------------ *)
(** ** The per-city loop *)

Module LoopFacts.
Import Warehouse EtlWeather Props.

(** The iteration computes exactly its normal form. *)
Lemma process_city_flat_eq (w : world) (city : string) (k : conn) :
  process_city w city k = process_city_flat w city k.
Proof.
  unfold process_city, process_city_flat, geocoded, geo_log, handled.
  destruct (fetch_coordinates w city) as [log [la lo]]; cbn [fst snd].
  rewrite <- negb_andb.
  destruct (Py.truthy la && Py.truthy lo); cbn [negb]; [|reflexivity].
  unfold try_except_db, load_city, bind, execute_city_upsert, skip_city,
    rollback_or_fail, rollback, emit, rolled_back.
  destruct (db_fails w city OpCityUpsert);
    [destruct (db_fails w city OpRollback);
     unfold bind; cbv beta iota; cbn [app fst snd];
     rewrite ?app_nil_r, <- ?app_assoc; reflexivity|].
  unfold upsert_id, upserted, forecast_row, requests_get.
  destruct (upsert_city (city_seq k) city (country_of city)
                        (dim_city (working k))) as [rows id]; cbn [fst snd].
  destruct (forecast w city) as [|status body]; [reflexivity|].
  unfold ret; cbn [fst snd].
  destruct (status =? 200); [|reflexivity].
  destruct body as [| | |data]; try reflexivity. cbn [json_current ret].
  unfold getitem, int_code, weather_main_of, raise, ret.
  destruct (weather_code data) as [[code|]|]; try reflexivity.
  destruct (WeatherCode.weather_main code) as [main|]; [|reflexivity].
  destruct (temperature_2m data) as [temperature|]; [|reflexivity].
  destruct (apparent_temperature data) as [feels_like|]; [|reflexivity].
  destruct (relative_humidity_2m data) as [humidity|]; [|reflexivity].
  destruct (wind_speed_10m data) as [wind_speed|]; [|reflexivity].
  unfold execute_snapshot_insert, commit, do_commit, inserted, committed_all.
  destruct (db_fails w city OpSnapshotInsert);
    [destruct (db_fails w city OpRollback);
     unfold bind; cbv beta iota; cbn [app fst snd];
     rewrite ?app_nil_r, <- ?app_assoc; reflexivity|].
  destruct (db_fails w city OpCommit);
    [destruct (db_fails w city OpRollback);
     unfold bind; cbv beta iota; cbn [app fst snd];
     rewrite ?app_nil_r, <- ?app_assoc; reflexivity|reflexivity].
Qed.

Lemma forecast_row_fields (w : world) (city : string) (id : Z) (r : snapshot_row) :
  forecast_row w city id = Ok (Some r) ->
  fw_city_id r = id /\ fw_fetch_date r = db_now w city.
Proof.
  unfold forecast_row.
  repeat match goal with
         | |- context [match ?x with _ => _ end] => destruct x
         end; try discriminate.
  intros H; injection H as <-. split; reflexivity.
Qed.

(** Where one iteration can leave the connection. *)
Lemma process_city_states (w : world) (city : string) (k : conn) :
  let k' := state_of (process_city w city k) in
  k' = k \/ k' = rolled_back k \/ k' = upserted city k
  \/ k' = rolled_back (upserted city k)
  \/ exists r,
      forecast_row w city (upsert_id city k) = Ok (Some r)
      /\ (k' = rolled_back (inserted r (upserted city k))
          \/ k' = committed_all (inserted r (upserted city k))).
Proof.
  rewrite process_city_flat_eq. unfold process_city_flat, handled.
  destruct (db_fails w city OpRollback);
    (destruct (negb (geocoded w city)); [now left|]);
    (destruct (db_fails w city OpCityUpsert); [right; now left|]);
    (destruct (forecast_row w city (upsert_id city k)) as [[r|]|e] eqn:E;
     cbn; try (right; right; now left));
    (destruct (db_fails w city OpSnapshotInsert);
     [right; right; right; now left|]);
    do 4 right; exists r; (split; [reflexivity|]);
    destruct (db_fails w city OpCommit); cbn; auto.
Qed.

(** *** The loop *)

Lemma for_each_cons (w : world) (city : string) (rest : list string) (k : conn) :
  for_each (city :: rest) (process_city w) k =
  match result_of (process_city w city k) with
  | Ok _ => after_events (events_of (process_city w city k))
                         (for_each rest (process_city w)
                                   (state_of (process_city w city k)))
  | Raised e => (events_of (process_city w city k),
                 state_of (process_city w city k), Raised e)
  end.
Proof.
  cbn [for_each]. unfold bind, after_events, events_of, state_of, result_of.
  destruct (process_city w city k) as [[ev k1] [[]|e]]; cbn [fst snd];
    [|reflexivity].
  destruct (for_each rest (process_city w) k1) as [[ev2 k2] r]. reflexivity.
Qed.

(** A property every iteration keeps is kept by the loop, however it ends. *)
Lemma for_each_preserves_in (P : conn -> Prop) (w : world)
      (cities : list string) :
  (forall city k, In city cities -> P k ->
                  P (state_of (process_city w city k))) ->
  forall k, P k -> P (state_of (for_each cities (process_city w) k)).
Proof.
  induction cities as [|city rest IH]; intros Hstep k Hk.
  - exact Hk.
  - rewrite for_each_cons.
    pose proof (Hstep city k (or_introl eq_refl) Hk) as Hk'.
    destruct (result_of (process_city w city k)); [|exact Hk'].
    apply IH; [|exact Hk'].
    intros c k0 Hc. apply Hstep. now right.
Qed.

Lemma for_each_preserves (P : conn -> Prop) (w : world) (cities : list string) :
  (forall city k, P k -> P (state_of (process_city w city k))) ->
  forall k, P k -> P (state_of (for_each cities (process_city w) k)).
Proof.
  intros Hstep. apply for_each_preserves_in. intros city k _. apply Hstep.
Qed.

Lemma run_state (w : world) (cities : list string) (k : conn) :
  let loop := for_each cities (process_city w) k in
  match result_of loop with
  | Ok _ =>
      fetch_and_load_weather_on w cities k =
      (events_of loop ++ [Close; PrintDone], rolled_back (state_of loop), Ok tt)
  | Raised e => fetch_and_load_weather_on w cities k = loop
  end.
Proof.
  unfold fetch_and_load_weather_on, bind, events_of, state_of, result_of.
  destruct (for_each cities (process_city w) k) as [[ev k1] [[]|e]];
    reflexivity.
Qed.

(** Whatever the outcome, what is durable after the script is what the loop
    left committed. *)
Lemma run_durable (w : world) (cities : list string) (k : conn) :
  durable (fetch_and_load_weather_on w cities k) =
  committed (state_of (for_each cities (process_city w) k)).
Proof.
  pose proof (run_state w cities k) as H. cbv zeta in H.
  destruct (result_of (for_each cities (process_city w) k));
    rewrite H; reflexivity.
Qed.

(** *** Consistency of the connection *)

Lemma consistent_rolled_back (k : conn) :
  consistent k -> consistent (rolled_back k).
Proof. intros [Hc _]. split; exact Hc. Qed.

Lemma consistent_committed_all (k : conn) :
  consistent k -> consistent (committed_all k).
Proof. intros [_ Hw]. split; exact Hw. Qed.

Lemma consistent_upserted (city : string) (k : conn) :
  consistent k -> consistent (upserted city k).
Proof.
  intros [Hc Hw]. split; cbn.
  - apply TableFacts.well_formed_seq_mono with (seq := city_seq k); [lia|exact Hc].
  - now apply TableFacts.well_formed_upsert.
Qed.

Lemma consistent_inserted (r : snapshot_row) (k : conn) :
  In (fw_city_id r) (ids (working k)) ->
  consistent k -> consistent (inserted r k).
Proof.
  intros Hin [Hc Hw]. split; cbn; [exact Hc|].
  now apply TableFacts.well_formed_insert.
Qed.

Lemma consistent_loaded (w : world) (city : string) (k : conn) (r : snapshot_row) :
  forecast_row w city (upsert_id city k) = Ok (Some r) ->
  consistent k -> consistent (inserted r (upserted city k)).
Proof.
  intros Hr Hk. apply consistent_inserted; [|now apply consistent_upserted].
  apply forecast_row_fields in Hr. destruct Hr as [-> _].
  eapply TableFacts.key_in_ids, TableFacts.upsert_id_key.
Qed.

Lemma process_city_consistent (w : world) (city : string) (k : conn) :
  consistent k -> consistent (state_of (process_city w city k)).
Proof.
  intros Hk.
  destruct (process_city_states w city k)
    as [->|[->|[->|[->|[r [Hr [->| ->]]]]]]].
  - exact Hk.
  - now apply consistent_rolled_back.
  - now apply consistent_upserted.
  - now apply consistent_rolled_back, consistent_upserted.
  - eapply consistent_rolled_back, consistent_loaded; eassumption.
  - eapply consistent_committed_all, consistent_loaded; eassumption.
Qed.

Lemma fresh_warehouse_consistent : consistent fresh_warehouse.
Proof. split; split; cbn; constructor. Qed.

Lemma reachable_consistent (k : conn) : reachable k -> consistent k.
Proof.
  induction 1 as [|w city k _ IH|k _ IH].
  - exact fresh_warehouse_consistent.
  - now apply process_city_consistent.
  - now apply consistent_rolled_back.
Qed.

Lemma geocoded_no_log (w : world) (city : string) :
  geocoded w city = true -> geo_log w city = [].
Proof.
  unfold geocoded, geo_log, fetch_coordinates.
  destruct (geocode w city) as [|status [|[|[[la|] [lo|]] items]]];
    try destruct (status =? 200); cbn; try discriminate; reflexivity.
Qed.

Lemma process_city_parent_upserted (w : world) (city : string) (k : conn) :
  parent_upserted city [] (events_of (process_city w city k)) = true.
Proof.
  rewrite process_city_flat_eq. unfold process_city_flat, handled.
  destruct (geocoded w city) eqn:Hg; cbn [negb].
  - rewrite (geocoded_no_log _ _ Hg). cbn [app].
    destruct (db_fails w city OpCityUpsert);
      [destruct (db_fails w city OpRollback); reflexivity|].
    destruct (forecast_row w city (upsert_id city k)) as [[r|]|e] eqn:E;
      cbn; rewrite ?String.eqb_refl; try reflexivity.
    apply forecast_row_fields in E. destruct E as [E _].
    destruct (db_fails w city OpSnapshotInsert);
      [|destruct (db_fails w city OpCommit)];
      try destruct (db_fails w city OpRollback);
      cbn; rewrite ?String.eqb_refl; cbn; rewrite ?E, ?Z.eqb_refl; reflexivity.
  - unfold geo_log, fetch_coordinates. cbn.
    destruct (geocode w city) as [|status [|[|[[la|] [lo|]] items]]];
      try destruct (status =? 200); reflexivity.
Qed.

(** C7. In every state the weather loader can bring the warehouse to, no
    snapshot row is without its parent city row, in the committed tables as
    in the open transaction; and in the next iteration, for any city and any
    behaviour of the services, every snapshot insert follows an upsert of
    that city that returned the snapshot's city id, with no commit or
    rollback in between, and leaves the tables in such a state again: a
    commit persists both rows, a rollback discards both. *)
Theorem snapshot_has_parent_city (k : conn) (Hk : reachable k) :
  referential (committed k) /\ referential (working k)
  /\ forall (w : world) (city : string),
      parent_upserted city [] (events_of (process_city w city k)) = true
      /\ referential (committed (state_of (process_city w city k)))
      /\ referential (working (state_of (process_city w city k))).
Proof.
  pose proof (reachable_consistent k Hk) as [Hc Hw].
  split; [apply Hc|]. split; [apply Hw|].
  intros w city. split; [apply process_city_parent_upserted|].
  pose proof (reachable_consistent _ (reach_city w city k Hk)) as [Hc' Hw'].
  split; [apply Hc'|apply Hw'].
Qed.

Lemma snapshot_has_parent_city_witness :
  reachable Examples.after_nairobi
  /\ (referential (committed Examples.after_nairobi)
      /\ referential (working Examples.after_nairobi)
      /\ forall (w : world) (city : string),
          parent_upserted city []
            (events_of (process_city w city Examples.after_nairobi)) = true
          /\ referential
               (committed (state_of (process_city w city Examples.after_nairobi)))
          /\ referential
               (working (state_of (process_city w city Examples.after_nairobi)))).
Proof.
  assert (H : reachable Examples.after_nairobi)
    by (apply reach_city, reach_fresh).
  split; [exact H|exact (snapshot_has_parent_city _ H)].
Defined.

(** *** Geocoding *)

Lemma not_geocoded_skips (w : world) (city : string) (k : conn) :
  geocoded w city = false ->
  process_city w city k = (geo_log w city, k, Ok tt).
Proof.
  intros H. rewrite process_city_flat_eq. unfold process_city_flat.
  rewrite H. reflexivity.
Qed.

Lemma skipped_city_continues (w : world) (city : string) (rest : list string)
      (k : conn) (ev : list event) (k' : conn) :
  process_city w city k = (ev, k', Ok tt) ->
  for_each (city :: rest) (process_city w) k =
  after_events ev (for_each rest (process_city w) k').
Proof. intros H. rewrite for_each_cons, H. reflexivity. Qed.

(** C5. When the geocoding step raises (the request itself, the decoding
    of the body, or the parsing of a coordinate), answers with a status other
    than 200 or answers with an empty array, [fetch_coordinates] returns
    (None, None); the iteration then sends nothing to the database, leaves
    the connection as it was and the loop goes on with the next city. *)
Theorem geocoding_failure_skips_city
        (w : world) (city : string) (rest : list string) (k : conn)
        (Hfail : geocode w city = GeoRaises
                 \/ (exists status body,
                        geocode w city = GeoReply status body /\ status <> 200)
                 \/ geocode w city = GeoReply 200 GeoNotJson
                 \/ geocode w city = GeoReply 200 (GeoArray [])
                 \/ (exists item items,
                        geocode w city = GeoReply 200 (GeoArray (item :: items))
                        /\ (lat item = None \/ lon item = None))) :
  snd (fetch_coordinates w city) = (None, None)
  /\ process_city w city k = (fst (fetch_coordinates w city), k, Ok tt)
  /\ filter is_statement (events_of (process_city w city k)) = []
  /\ filter is_commit (events_of (process_city w city k)) = []
  /\ for_each (city :: rest) (process_city w) k =
     after_events (fst (fetch_coordinates w city))
                  (for_each rest (process_city w) k).
Proof.
  assert (Hc : snd (fetch_coordinates w city) = (None, None)
               /\ (fst (fetch_coordinates w city) = []
                   \/ fst (fetch_coordinates w city) = [LogWarning city])).
  { unfold fetch_coordinates.
    destruct Hfail as [->|[[status [body [-> Hs]]]|[->|[->|[item [items [-> Hi]]]]]]].
    - split; [reflexivity|now right].
    - apply Z.eqb_neq in Hs. rewrite Hs. split; [reflexivity|now left].
    - split; [reflexivity|now right].
    - split; [reflexivity|now left].
    - cbn. destruct (lat item), (lon item), Hi as [Hi|Hi];
        try discriminate Hi; split; try reflexivity; now right. }
  destruct Hc as [Hnone Hlog].
  assert (Hg : geocoded w city = false).
  { unfold geocoded. destruct (fetch_coordinates w city) as [log [la lo]].
    cbn in Hnone. injection Hnone as -> ->. reflexivity. }
  pose proof (not_geocoded_skips w city k Hg) as Hstep.
  unfold geo_log in Hstep.
  split; [exact Hnone|]. split; [exact Hstep|].
  rewrite Hstep. unfold events_of; cbn [fst].
  split; [destruct Hlog as [->| ->]; reflexivity|].
  split; [destruct Hlog as [->| ->]; reflexivity|].
  now apply skipped_city_continues.
Qed.

Lemma geocoding_failure_skips_city_witness :
  geocode (Examples.geocoding_mombasa GeoRaises) Examples.mombasa = GeoRaises
  /\ snd (fetch_coordinates (Examples.geocoding_mombasa GeoRaises)
                            Examples.mombasa) = (None, None)
  /\ process_city (Examples.geocoding_mombasa GeoRaises) Examples.mombasa
                  Examples.after_nairobi
     = ([LogWarning Examples.mombasa], Examples.after_nairobi, Ok tt).
Proof.
  split; [reflexivity|].
  destruct (geocoding_failure_skips_city
              (Examples.geocoding_mombasa GeoRaises) Examples.mombasa
              [Examples.kisumu] Examples.after_nairobi (or_introl eq_refl))
    as [H1 [H2 _]].
  split; [exact H1|exact H2].
Defined.

(** C9. A geocoding answer whose latitude or longitude is zero is falsy in
    [if not lat or not lon]: although [fetch_coordinates] returned both
    coordinates, the iteration does what it does on a geocoding failure; it
    sends nothing to the database, leaves the connection as it was and the
    loop goes on with the next city. *)
Theorem zero_coordinate_skips_city
        (w : world) (city : string) (rest : list string) (k : conn)
        (la lo : float) (items : list geo_item)
        (Hgeo : geocode w city =
                GeoReply 200 (GeoArray ({| lat := Some la; lon := Some lo |} :: items)))
        (Hzero : PrimFloat.eqb la 0 = true \/ PrimFloat.eqb lo 0 = true) :
  fetch_coordinates w city = ([], (Some la, Some lo))
  /\ process_city w city k = ([], k, Ok tt)
  /\ (forall w', geocode w' city = GeoReply 200 (GeoArray []) ->
                 process_city w' city k = process_city w city k)
  /\ for_each (city :: rest) (process_city w) k =
     for_each rest (process_city w) k.
Proof.
  assert (Hc : fetch_coordinates w city = ([], (Some la, Some lo))).
  { unfold fetch_coordinates. rewrite Hgeo. reflexivity. }
  assert (Hg : geocoded w city = false).
  { unfold geocoded. rewrite Hc. cbn. unfold Py.float_truthy.
    destruct Hzero as [-> | ->]; cbn; [reflexivity|apply andb_false_r]. }
  pose proof (not_geocoded_skips w city k Hg) as Hstep.
  unfold geo_log in Hstep. rewrite Hc in Hstep. cbn in Hstep.
  split; [exact Hc|]. split; [exact Hstep|]. split.
  - intros w' Hw'. rewrite Hstep.
    unfold process_city, fetch_coordinates. rewrite Hw'. reflexivity.
  - rewrite (skipped_city_continues _ _ rest _ _ _ Hstep).
    unfold after_events, events_of, state_of, result_of.
    destruct (for_each rest (process_city w) k) as [[ev k'] r]. reflexivity.
Qed.

Lemma zero_coordinate_skips_city_witness :
  PrimFloat.eqb 0 0 = true
  /\ process_city
       (Examples.geocoding_mombasa
          (GeoReply 200 (GeoArray [{| lat := Some 0%float;
                                      lon := Some 39.5%float |}])))
       Examples.mombasa Examples.after_nairobi
     = ([], Examples.after_nairobi, Ok tt).
Proof.
  split; [reflexivity|].
  exact (proj1 (proj2 (zero_coordinate_skips_city
                         (Examples.geocoding_mombasa
                            (GeoReply 200 (GeoArray [{| lat := Some 0%float;
                                                        lon := Some 39.5%float |}])))
                         Examples.mombasa [Examples.kisumu]
                         Examples.after_nairobi 0%float 39.5%float []
                         eq_refl (or_introl eq_refl)))).
Defined.

(** *** The forecast request *)

Lemma weather_main_some (code : Z) :
  exists m, WeatherCode.weather_main code = Some m.
Proof.
  unfold WeatherCode.weather_main.
  destruct ((1 <=? code) && (code <=? 3)); [eexists; reflexivity|].
  apply WeatherCodeFacts.first_word_not_clouds.
Qed.

Lemma forecast_row_not_200 (w : world) (city : string) (id status : Z)
      (body : forecast_body) :
  forecast w city = ForecastReply status body -> status <> 200 ->
  forecast_row w city id = Ok None.
Proof.
  intros Hf Hs. unfold forecast_row. rewrite Hf.
  apply Z.eqb_neq in Hs. rewrite Hs. reflexivity.
Qed.

Lemma forecast_row_complete (w : world) (city : string) (id : Z) :
  forecast_complete w city = true ->
  exists r, forecast_row w city id = Ok (Some r).
Proof.
  unfold forecast_complete, forecast_row.
  destruct (forecast w city) as [|status body]; [discriminate|].
  destruct (status =? 200); [|discriminate]. cbn.
  destruct body as [| | |data]; try discriminate.
  unfold missing_fields, integer_code.
  destruct (weather_code data) as [[code|]|]; try discriminate;
    [|now rewrite andb_false_r].
  destruct (weather_main_some code) as [m ->].
  destruct (temperature_2m data); [|discriminate].
  destruct (apparent_temperature data); [|discriminate].
  destruct (relative_humidity_2m data); [|discriminate].
  destruct (wind_speed_10m data); [|discriminate].
  intros _. eexists; reflexivity.
Qed.

(** The iteration of a city whose upsert went through and whose forecast
    gives no row: the upsert alone, pending. *)
Lemma process_city_no_row (w : world) (city : string) (k : conn) :
  geocoded w city = true -> db_fails w city OpCityUpsert = false ->
  forall res,
    forecast_row w city (upsert_id city k) = res ->
    (forall r, res <> Ok (Some r)) ->
    process_city w city k =
    ([CityUpsert city (country_of city) (upsert_id city k)],
     upserted city k,
     match res with Ok _ => Ok tt | Raised e => Raised e end).
Proof.
  intros Hg Hdb res Hres Hnone.
  rewrite process_city_flat_eq. unfold process_city_flat.
  rewrite Hg, Hdb, (geocoded_no_log _ _ Hg), Hres. cbn.
  destruct res as [[r|]|e]; [|reflexivity|reflexivity].
  now destruct (Hnone r).
Qed.

(** The iteration of a city for which everything works. *)
Lemma process_city_loaded (w : world) (city : string) (k : conn) :
  geocoded w city = true -> forecast_complete w city = true ->
  db_healthy w city = true ->
  exists r,
    forecast_row w city (upsert_id city k) = Ok (Some r)
    /\ process_city w city k =
       ([CityUpsert city (country_of city) (upsert_id city k);
         SnapshotInsert r; Commit;
         PrintLoaded city (country_of city) (fw_temperature_celsius r)],
        committed_all (inserted r (upserted city k)), Ok tt).
Proof.
  intros Hg Hf Hdb.
  destruct (forecast_row_complete w city (upsert_id city k) Hf) as [r Hr].
  exists r. split; [exact Hr|].
  unfold db_healthy in Hdb.
  apply andb_true_iff in Hdb. destruct Hdb as [Hdb H3].
  apply andb_true_iff in Hdb. destruct Hdb as [H1 H2].
  apply negb_true_iff in H1, H2, H3.
  rewrite process_city_flat_eq. unfold process_city_flat.
  rewrite Hg, H1, H2, H3, (geocoded_no_log _ _ Hg), Hr. reflexivity.
Qed.

(** The iteration of a city that meets a database error. *)
Lemma process_city_db_error (w : world) (city : string) (k : conn) :
  geocoded w city = true -> db_error_occurs w city = true ->
  exists ev seq,
    process_city w city k =
    handled w city ev
      {| committed := committed k; working := committed k; city_seq := seq |}
    /\ filter is_commit ev = [] /\ city_seq k <= seq.
Proof.
  intros Hg Herr.
  rewrite process_city_flat_eq. unfold process_city_flat, handled.
  rewrite Hg, (geocoded_no_log _ _ Hg). cbn [negb app].
  unfold db_error_occurs in Herr.
  destruct (db_fails w city OpCityUpsert).
  - exists [], (city_seq k). repeat split. lia.
  - cbn in Herr. apply andb_true_iff in Herr. destruct Herr as [Hf Herr].
    destruct (forecast_row_complete w city (upsert_id city k) Hf) as [r ->].
    destruct (db_fails w city OpSnapshotInsert).
    + exists [CityUpsert city (country_of city) (upsert_id city k)],
        (city_seq k + 1).
      repeat split. cbn. lia.
    + cbn in Herr. rewrite Herr.
      exists [CityUpsert city (country_of city) (upsert_id city k);
              SnapshotInsert r], (city_seq k + 1).
      repeat split. cbn. lia.
Qed.

(** An exception of the forecast step is no [psycopg2.Error]: the handler
    does not see it, and it leaves the loop with the city upsert pending and
    the remaining cities unprocessed. *)
Lemma forecast_exception_ends_loop (w : world) (city : string)
      (rest : list string) (k : conn) (e : exn) :
  geocoded w city = true -> db_fails w city OpCityUpsert = false ->
  forecast_row w city (upsert_id city k) = Raised e ->
  for_each (city :: rest) (process_city w) k =
  ([CityUpsert city (country_of city) (upsert_id city k)],
   upserted city k, Raised e).
Proof.
  intros Hg Hdb Hrow. rewrite for_each_cons.
  rewrite (process_city_no_row w city k Hg Hdb _ Hrow);
    [reflexivity|intros r; discriminate].
Qed.

(** C1. A 200 forecast that lacks an expected field is not skipped: with
    Nairobi loaded, Mombasa geocoded and its forecast without
    ["weather_code"], the lookup raises a [KeyError] that the handler of
    [psycopg2.Error] does not catch; it leaves the loop after Mombasa's
    upsert, Kisumu, next in the list, is never processed, and the loader
    itself ends with that exception. *)
Lemma missing_field_aborts_batch :
  geocoded Examples.incomplete_forecast_world Examples.mombasa = true
  /\ forecast Examples.incomplete_forecast_world Examples.mombasa =
     ForecastReply 200 (Current Examples.no_weather_code)
  /\ missing_fields (Current Examples.no_weather_code) = true
  /\ for_each [Examples.mombasa; Examples.kisumu]
              (process_city Examples.incomplete_forecast_world)
              Examples.after_nairobi
     = ([CityUpsert Examples.mombasa "Kenya" 2],
        upserted Examples.mombasa Examples.after_nairobi,
        Raised (KeyError "weather_code"))
  /\ result_of (fetch_and_load_weather_on
                  Examples.incomplete_forecast_world
                  [Examples.mombasa; Examples.kisumu] Examples.after_nairobi)
     = Raised (KeyError "weather_code").
Proof. repeat split; vm_compute; reflexivity. Qed.

(** *** What is committed stays *)

Lemma extends_refl (t : tables) : extends t t.
Proof. split; apply incl_refl. Qed.

Lemma extends_trans (t1 t2 t3 : tables) :
  extends t1 t2 -> extends t2 t3 -> extends t1 t3.
Proof. intros [H1 H2] [H3 H4]. split; eapply incl_tran; eassumption. Qed.

Lemma extends_upsert (seq : Z) (city country : string) (t : tables) :
  extends t (with_dim_city (fst (upsert_city seq city country (dim_city t))) t).
Proof.
  split; [|apply incl_refl].
  rewrite TableFacts.keys_with_dim_city. unfold keys.
  destruct (TableFacts.upsert_city_keys seq city country (dim_city t))
    as [[_ ->]|[_ [_ ->]]]; [apply incl_refl|apply incl_appl, incl_refl].
Qed.

Lemma extends_insert (r : snapshot_row) (t : tables) :
  extends t (with_snapshots (insert_snapshot r (fact_weather_snapshot t)) t).
Proof.
  split; [apply incl_refl|]. cbn.
  destruct (TableFacts.insert_snapshot_cases r (fact_weather_snapshot t))
    as [-> | ->]; [apply incl_refl|apply incl_appl, incl_refl].
Qed.

Lemma extends_loaded (r : snapshot_row) (city : string) (k : conn) :
  extends (working k) (working (inserted r (upserted city k))).
Proof.
  eapply extends_trans; [apply extends_upsert|]. apply extends_insert.
Qed.

(** An iteration keeps what was committed, and the open transaction keeps
    seeing it. *)
Lemma process_city_extends (w : world) (city : string) (k : conn) :
  extends (committed k) (working k) ->
  extends (committed (state_of (process_city w city k)))
          (working (state_of (process_city w city k)))
  /\ extends (committed k) (committed (state_of (process_city w city k))).
Proof.
  intros Hk.
  destruct (process_city_states w city k)
    as [->|[->|[->|[->|[r [Hr [->| ->]]]]]]]; cbn;
    try (split; [first [exact Hk|apply extends_refl]|apply extends_refl]).
  - split; [|apply extends_refl].
    eapply extends_trans; [exact Hk|apply extends_upsert].
  - split; [apply extends_refl|].
    eapply extends_trans; [exact Hk|].
    exact (extends_loaded r city k).
Qed.

Lemma for_each_extends (w : world) (cities : list string) (k : conn) :
  extends (committed k) (working k) ->
  extends (committed k)
          (committed (state_of (for_each cities (process_city w) k))).
Proof.
  intros Hk.
  apply (for_each_preserves
           (fun k' => extends (committed k') (working k')
                      /\ extends (committed k) (committed k')) w cities).
  - intros city k' [Ha He].
    destruct (process_city_extends w city k' Ha) as [Ha' He'].
    split; [exact Ha'|]. eapply extends_trans; eassumption.
  - split; [exact Hk|apply extends_refl].
Qed.

(** Only a commit changes the committed tables. *)
Lemma process_city_no_commit (w : world) (city : string) (k : conn) :
  filter is_commit (events_of (process_city w city k)) = [] ->
  committed (state_of (process_city w city k)) = committed k.
Proof.
  rewrite process_city_flat_eq. unfold process_city_flat, handled.
  destruct (negb (geocoded w city)); [reflexivity|].
  destruct (db_fails w city OpCityUpsert);
    [destruct (db_fails w city OpRollback); reflexivity|].
  destruct (forecast_row w city (upsert_id city k)) as [[r|]|e];
    try reflexivity.
  destruct (db_fails w city OpSnapshotInsert);
    [destruct (db_fails w city OpRollback); reflexivity|].
  destruct (db_fails w city OpCommit);
    [destruct (db_fails w city OpRollback); reflexivity|].
  unfold events_of; cbn [fst]. rewrite filter_app. intros H.
  apply app_eq_nil in H. destruct H as [_ H]. discriminate H.
Qed.

Lemma for_each_no_commit (w : world) (cities : list string) :
  forall k,
    filter is_commit (events_of (for_each cities (process_city w) k)) = [] ->
    committed (state_of (for_each cities (process_city w) k)) = committed k.
Proof.
  induction cities as [|city rest IH]; intros k; [reflexivity|].
  rewrite for_each_cons.
  destruct (result_of (process_city w city k)).
  - change (filter is_commit
              (events_of (process_city w city k) ++
               events_of (for_each rest (process_city w)
                                   (state_of (process_city w city k)))) = [] ->
            committed (state_of (for_each rest (process_city w)
                                          (state_of (process_city w city k))))
            = committed k).
    rewrite filter_app. intros H. apply app_eq_nil in H. destruct H as [H1 H2].
    rewrite (IH _ H2). now apply process_city_no_commit.
  - apply process_city_no_commit.
Qed.

(** C4 does not hold as "only that city's transaction": the connection has
    one open transaction, and the rollback of a city's handler discards
    whatever earlier cities left pending in it. Mombasa's forecast answers
    503, so its upsert stays pending; the error on Kisumu's upsert then rolls
    Mombasa's row back, and with Eldoret loaded next the run ends without
    Mombasa's row, which the same run without Kisumu commits. Nor does a
    database error never end the batch: when the rollback of the handler
    fails as well, its error leaves the loop and Kisumu is not processed. *)
Lemma rollback_discards_pending_city :
  geocoded Examples.pending_then_failing Examples.kisumu = true
  /\ db_error_occurs Examples.pending_then_failing Examples.kisumu = true
  /\ names (working (state_of (process_city Examples.pending_then_failing
                                 Examples.mombasa Examples.after_nairobi)))
     = [Examples.nairobi; Examples.mombasa]
  /\ names (working (state_of (for_each [Examples.mombasa; Examples.kisumu]
                                 (process_city Examples.pending_then_failing)
                                 Examples.after_nairobi)))
     = [Examples.nairobi]
  /\ names (durable (fetch_and_load_weather_on Examples.pending_then_failing
                       [Examples.mombasa; Examples.kisumu; Examples.eldoret]
                       Examples.after_nairobi))
     = [Examples.nairobi; Examples.eldoret]
  /\ names (durable (fetch_and_load_weather_on Examples.pending_then_failing
                       [Examples.mombasa; Examples.eldoret]
                       Examples.after_nairobi))
     = [Examples.nairobi; Examples.mombasa; Examples.eldoret]
  /\ db_error_occurs Examples.lost_connection_world Examples.mombasa = true
  /\ fetch_and_load_weather_on Examples.lost_connection_world
       [Examples.mombasa; Examples.kisumu] Examples.after_nairobi
     = ([], Examples.after_nairobi, Raised DbError).
Proof. repeat split; vm_compute; reflexivity. Qed.

(** C4 (amended). When a database call of a geocoded city's iteration fails
    (the upsert, or the insert or the commit after a complete forecast), no
    commit happens in the iteration and the open transaction is dropped as a
    whole: the committed tables are exactly those of before and the
    connection sees nothing else any more, neither this city's statements
    nor the upserts earlier cities left pending. Every city row and snapshot
    committed before is still there at the end of the run. When the rollback
    of the handler goes through, the iteration logs the error and returns,
    and the loop goes on with the remaining cities from that state; when the
    rollback fails too, its error leaves the loop and ends the run. *)
Theorem database_error_resets_open_transaction
        (w : world) (city : string) (rest : list string) (k : conn)
        (Hgeo : geocoded w city = true)
        (Herr : db_error_occurs w city = true) :
  filter is_commit (events_of (process_city w city k)) = []
  /\ committed (state_of (process_city w city k)) = committed k
  /\ working (state_of (process_city w city k)) = committed k
  /\ extends (committed k)
             (durable (fetch_and_load_weather_on w (city :: rest) k))
  /\ (db_fails w city OpRollback = false ->
      result_of (process_city w city k) = Ok tt
      /\ (exists ev, events_of (process_city w city k) =
                     ev ++ [Rollback; LogError city])
      /\ for_each (city :: rest) (process_city w) k =
         after_events (events_of (process_city w city k))
                      (for_each rest (process_city w)
                                (state_of (process_city w city k))))
  /\ (db_fails w city OpRollback = true ->
      result_of (process_city w city k) = Raised DbError
      /\ for_each (city :: rest) (process_city w) k = process_city w city k
      /\ fetch_and_load_weather_on w (city :: rest) k = process_city w city k).
Proof.
  destruct (process_city_db_error w city k Hgeo Herr)
    as [ev [seq [Hstep [Hev Hseq]]]].
  unfold handled in Hstep.
  pose proof (run_state w (city :: rest) k) as Hrun. cbv zeta in Hrun.
  rewrite run_durable. rewrite for_each_cons in *.
  destruct (db_fails w city OpRollback); rewrite Hstep in *;
    unfold result_of, events_of, state_of, after_events in *;
    cbn [fst snd rolled_back committed working] in *.
  - repeat split; try assumption; try discriminate; try apply incl_refl.
  - split; [rewrite filter_app, Hev; reflexivity|].
    split; [reflexivity|]. split; [reflexivity|]. split.
    + exact (for_each_extends w rest
               {| committed := committed k; working := committed k;
                  city_seq := seq |} (extends_refl _)).
    + split; [|discriminate]. intros _.
      split; [reflexivity|]. split; [now exists ev|reflexivity].
Qed.

Lemma database_error_resets_open_transaction_witness :
  (geocoded (Examples.failing_mombasa OpCityUpsert) Examples.mombasa = true
   /\ db_error_occurs (Examples.failing_mombasa OpCityUpsert) Examples.mombasa
      = true)
  /\ committed (state_of (process_city (Examples.failing_mombasa OpCityUpsert)
                                       Examples.mombasa Examples.after_nairobi))
     = committed Examples.after_nairobi
  /\ working (state_of (process_city (Examples.failing_mombasa OpCityUpsert)
                                     Examples.mombasa Examples.after_nairobi))
     = committed Examples.after_nairobi.
Proof.
  split; [split; reflexivity|].
  destruct (database_error_resets_open_transaction
              (Examples.failing_mombasa OpCityUpsert) Examples.mombasa
              [Examples.kisumu] Examples.after_nairobi eq_refl eq_refl)
    as [_ [H2 [H3 _]]].
  split; [exact H2|exact H3].
Defined.

(** C10. When the forecast of a geocoded city answers with a status other
    than 200, the iteration consists of the city upsert alone, with neither
    commit nor rollback: the row is in the open transaction and not in the
    committed tables. It is committed with the next city that is fully
    loaded, it is discarded when a later iteration rolls back, and when no
    later iteration of the run commits, the run ends with the committed
    tables as they were before that city. *)
Theorem unavailable_forecast_leaves_upsert_pending
        (w : world) (city : string) (rest : list string) (k : conn)
        (status : Z) (body : forecast_body)
        (Hgeo : geocoded w city = true)
        (Hdb : db_fails w city OpCityUpsert = false)
        (Hresp : forecast w city = ForecastReply status body)
        (Hstatus : status <> 200) :
  process_city w city k =
    ([CityUpsert city (country_of city) (upsert_id city k)],
     upserted city k, Ok tt)
  /\ committed (upserted city k) = committed k
  /\ In (upsert_id city k, city) (keys (working (upserted city k)))
  /\ (forall w' next,
         geocoded w' next = true -> forecast_complete w' next = true ->
         db_healthy w' next = true ->
         In (upsert_id city k, city)
            (keys (committed (state_of (process_city w' next (upserted city k))))))
  /\ (forall w' next,
         geocoded w' next = true -> db_error_occurs w' next = true ->
         committed (state_of (process_city w' next (upserted city k)))
         = committed k
         /\ working (state_of (process_city w' next (upserted city k)))
            = committed k)
  /\ (filter is_commit
             (events_of (for_each rest (process_city w) (upserted city k))) = [] ->
      durable (fetch_and_load_weather_on w (city :: rest) k) = committed k).
Proof.
  assert (Hstep : process_city w city k =
                  ([CityUpsert city (country_of city) (upsert_id city k)],
                   upserted city k, Ok tt)).
  { rewrite (process_city_no_row w city k Hgeo Hdb (Ok None)).
    - reflexivity.
    - eapply forecast_row_not_200; eassumption.
    - intros r; discriminate. }
  split; [exact Hstep|]. split; [reflexivity|].
  split; [apply TableFacts.upsert_id_key|]. split; [|split].
  - intros w' next Hg Hf Hh.
    destruct (process_city_loaded w' next (upserted city k) Hg Hf Hh)
      as [r [_ ->]].
    unfold state_of; cbn [fst snd committed committed_all].
    apply (extends_loaded r next (upserted city k)).
    apply TableFacts.upsert_id_key.
  - intros w' next Hg He.
    destruct (process_city_db_error w' next (upserted city k) Hg He)
      as [ev [seq [-> _]]].
    unfold handled. destruct (db_fails w' next OpRollback); split; reflexivity.
  - intros Hnone. rewrite run_durable, for_each_cons, Hstep.
    apply (for_each_no_commit w rest) in Hnone.
    unfold result_of, after_events, state_of in *; cbn [fst snd] in *.
    exact Hnone.
Qed.

Lemma unavailable_forecast_leaves_upsert_pending_witness :
  (geocoded Examples.unavailable_forecast_world Examples.mombasa = true
   /\ db_fails Examples.unavailable_forecast_world Examples.mombasa OpCityUpsert
      = false
   /\ forecast Examples.unavailable_forecast_world Examples.mombasa
      = ForecastReply 503 NoCurrent
   /\ 503 <> 200)
  /\ process_city Examples.unavailable_forecast_world Examples.mombasa
                  Examples.after_nairobi
     = ([CityUpsert Examples.mombasa
                    (country_of Examples.mombasa)
                    (upsert_id Examples.mombasa Examples.after_nairobi)],
        upserted Examples.mombasa Examples.after_nairobi, Ok tt).
Proof.
  assert (H503 : 503 <> 200) by discriminate.
  split; [repeat split; exact H503|].
  exact (proj1 (unavailable_forecast_leaves_upsert_pending
                  Examples.unavailable_forecast_world Examples.mombasa
                  [] Examples.after_nairobi 503 NoCurrent
                  eq_refl eq_refl eq_refl H503)).
Defined.

(** *** One city row, one snapshot row *)








Lemma configured_cities_distinct : NoDup Config.CITIES.
Proof. apply TableFacts.distinct_NoDup. vm_compute. reflexivity. Qed.

End LoopFacts.

(* ------------------------------------------------------------------ *)
(** ** The happiness loader *)

Module HappinessFacts.
Import Warehouse EtlHappiness.

Lemma upserts_from (w : db_world) (df : list csv_row) :
  (forall i, execute_fails w i = false) ->
  forall (start : nat) (k : conn),
    exists k',
      for_each (combine (seq start (List.length df)) df)
               (execute_country_upsert w) k
      = (map (fun r => CountryUpsert (to_country_row r)) df, k', Ok tt)
      /\ committed k' = committed k.
Proof.
  intros Hok. induction df as [|r df IH]; intros start k.
  - exists k. split; reflexivity.
  - cbn [List.length seq combine for_each]. unfold bind.
    unfold execute_country_upsert at 1. cbn [fst snd]. rewrite Hok.
    match goal with
    | |- context [for_each _ _ ?k1] =>
        destruct (IH (S start) k1) as [k' [-> Hk']]
    end.
    exists k'. split; [reflexivity|]. rewrite Hk'. reflexivity.
Qed.

(** With a database that accepts every call, the loader sends one upsert per
    data row, in file order, commits once after the last of them, and prints
    the first five rows of the file. *)
Lemma load_happiness_data_events (w : db_world) (df : list csv_row) (k : conn) :
  healthy w ->
  Props.result_of (load_happiness_data w df k) = Ok tt
  /\ Props.events_of (load_happiness_data w df k) =
     PrintOriginalColumns
       :: map (fun r => CountryUpsert (to_country_row r)) df
       ++ [Commit; Close; PrintLoadedCountries (List.length df);
           PrintTop5 (head df)].
Proof.
  intros [Hexec Hcommit].
  unfold load_happiness_data, iterrows, bind, emit, commit, do_commit, close.
  cbn [fst snd].
  destruct (upserts_from w df Hexec 0%nat k) as [k' [-> _]].
  rewrite Hcommit. split; reflexivity.
Qed.

Lemma filter_country_upserts (df : list csv_row) :
  filter is_country_upsert (map (fun r => CountryUpsert (to_country_row r)) df)
  = map (fun r => CountryUpsert (to_country_row r)) df.
Proof. induction df as [|r df IH]; cbn; [reflexivity|now rewrite IH]. Qed.

Lemma filter_commit_upserts (df : list csv_row) :
  filter is_commit (map (fun r => CountryUpsert (to_country_row r)) df) = [].
Proof. induction df as [|r df IH]; cbn; [reflexivity|exact IH]. Qed.

(** Exactly N upserts and one commit for N data rows. *)
Lemma load_happiness_data_counts (w : db_world) (df : list csv_row) (k : conn) :
  healthy w ->
  List.length (filter is_country_upsert
                      (Props.events_of (load_happiness_data w df k)))
  = List.length df
  /\ filter is_commit (Props.events_of (load_happiness_data w df k)) = [Commit].
Proof.
  intros Hw. destruct (load_happiness_data_events w df k Hw) as [_ ->].
  cbn [filter is_country_upsert is_commit]. rewrite !filter_app.
  rewrite filter_country_upserts, filter_commit_upserts. cbn.
  rewrite app_nil_r, length_map. split; reflexivity.
Qed.

Lemma sort_desc_descending (df : list csv_row) :
  descending df = true -> sort_desc df = df.
Proof.
  induction df as [|r [|r' rest] IH]; intros H; try reflexivity.
  cbn in H. apply andb_true_iff in H. destruct H as [Hlt Hrest].
  change (sort_desc (r :: r' :: rest))
    with (insert_desc r (sort_desc (r' :: rest))).
  rewrite (IH Hrest). cbn [insert_desc].
  apply negb_true_iff in Hlt. rewrite Hlt. reflexivity.
Qed.

(** On a file sorted by descending score, the printed rows are the five
    highest. *)
Lemma head_of_descending (df : list csv_row) :
  descending df = true -> head df = five_highest df.
Proof.
  intros H. unfold head, five_highest. now rewrite sort_desc_descending.
Qed.

(** C6 at a file that is not sorted by score. The loader sends six upserts
    for the six rows and commits once, and its "Top 5 happiest" is the first
    five rows of the file: it lists the Netherlands (6.5) and leaves out
    Sweden (7.0), which is among the five highest scores. *)
Theorem top5_is_file_order
  : let run := load_happiness_data accepting alphabetical_csv fresh_warehouse in
    Props.result_of run = Ok tt
    /\ List.length (filter is_country_upsert (Props.events_of run)) = 6%nat
    /\ filter is_commit (Props.events_of run) = [Commit]
    /\ last (Props.events_of run) PrintDone = PrintTop5 (head alphabetical_csv)
    /\ head alphabetical_csv =
       [ ("Denmark", Some 7.5%float); ("Finland", Some 7.75%float);
         ("Iceland", Some 7.25%float); ("Israel", Some 6.75%float);
         ("Netherlands", Some 6.5%float) ]
    /\ five_highest alphabetical_csv =
       [ ("Finland", Some 7.75%float); ("Denmark", Some 7.5%float);
         ("Iceland", Some 7.25%float); ("Sweden", Some 7%float);
         ("Israel", Some 6.75%float) ]
    /\ head alphabetical_csv <> five_highest alphabetical_csv.
Proof.
  cbv zeta.
  assert (Hw : healthy accepting) by (split; reflexivity).
  destruct (load_happiness_data_events accepting alphabetical_csv
                                       fresh_warehouse Hw) as [Hres Hev].
  destruct (load_happiness_data_counts accepting alphabetical_csv
                                       fresh_warehouse Hw) as [Hn Hc].
  split; [exact Hres|]. split; [exact Hn|]. split; [exact Hc|].
  split; [rewrite Hev; reflexivity|].
  split; [reflexivity|]. split; [vm_compute; reflexivity|].
  vm_compute. discriminate.
Qed.

End HappinessFacts.

(* ------------------------------------------------------------------ *)
(** ** The report generator *)

Module ReportFacts.
Import Warehouse Report.

(** With rows and no failing library call, the three files are written. *)
Lemma full_report_writes_three_files (w : world) (r : report_row)
      (df : list report_row) :
  read_sql w = Frame (r :: df) ->
  pearsonr_raises w = false -> main_visualization_raises w = false ->
  distribution_plots_raises w = false -> insights_raises w = false ->
  snd (main w) = Ok tt
  /\ files_written (main w) =
     [ SaveFig "happiness_vs_temperature_global.png";
       SaveFig "happiness_distributions.png";
       WriteFile "report_insights.txt" ].
Proof.
  intros Hq H1 H2 H3 H4.
  unfold files_written, main, generate_report, generate_report_body,
    fetch_data, calculate_statistics, create_main_visualization,
    create_distribution_plots, generate_insights.
  rewrite Hq, H1, H2, H3, H4. split; reflexivity.
Qed.

(** C8. When the warehouse query returns zero rows, [fetch_data] raises a
    [ValueError]; [generate_report] prints it and re-raises it to its
    caller, and neither of the two chart images nor the insights file has
    been written. *)
Theorem empty_result_raises_before_output
        (w : world) (Hempty : read_sql w = Frame []) :
  fetch_data w = ([], Raised ValueError)
  /\ generate_report w = ([PrintBanner; PrintError ValueError], Raised ValueError)
  /\ snd (main w) = Raised ValueError
  /\ files_written (generate_report w) = []
  /\ files_written (main w) = [].
Proof.
  assert (Hfetch : fetch_data w = ([], Raised ValueError)).
  { unfold fetch_data. rewrite Hempty. reflexivity. }
  assert (Hreport : generate_report w =
                    ([PrintBanner; PrintError ValueError], Raised ValueError)).
  { unfold generate_report, generate_report_body. rewrite Hfetch. reflexivity. }
  split; [exact Hfetch|]. split; [exact Hreport|].
  unfold files_written, main. rewrite Hreport. repeat split.
Qed.

Lemma empty_result_raises_before_output_witness :
  read_sql {| read_sql := Frame [];
              pearsonr_raises := false;
              main_visualization_raises := false;
              distribution_plots_raises := false;
              insights_raises := false |} = Frame []
  /\ files_written
       (main {| read_sql := Frame [];
                pearsonr_raises := false;
                main_visualization_raises := false;
                distribution_plots_raises := false;
                insights_raises := false |}) = [].
Proof.
  split; [reflexivity|].
  exact (proj2 (proj2 (proj2 (proj2
    (empty_result_raises_before_output
       {| read_sql := Frame [];
          pearsonr_raises := false;
          main_visualization_raises := false;
          distribution_plots_raises := false;
          insights_raises := false |} eq_refl))))).
Defined.

End ReportFacts.

(* ------------------------------------------------------------------ *)
(** ** City strings, coordinates and categories *)

Module ParsingFacts.
Import Warehouse EtlWeather Props Queries.

Lemma append_nil_r (s : string) : (s ++ "")%string = s.
Proof. induction s as [|c s IH]; cbn; [reflexivity|now rewrite IH]. Qed.

Lemma append_assoc (a b c : string) :
  ((a ++ b) ++ c)%string = (a ++ (b ++ c))%string.
Proof. induction a as [|x a IH]; cbn; [reflexivity|now rewrite IH]. Qed.

Lemma split_on_from_nonempty (sep : ascii) (s cur : string) :
  Py.split_on_from sep cur s <> [].
Proof.
  revert cur. induction s as [|c s IH]; intros cur; cbn; [discriminate|].
  destruct (Ascii.eqb c sep); [discriminate|apply IH].
Qed.

(** Without a separator there is one field: the whole string. *)
Lemma split_on_from_no_sep (sep : ascii) (s cur : string) :
  contains sep s = false ->
  Py.split_on_from sep cur s = [(cur ++ s)%string].
Proof.
  revert cur. induction s as [|c s IH]; intros cur H; cbn in *.
  - now rewrite append_nil_r.
  - apply orb_false_iff in H. destruct H as [Hc Hs]. rewrite Hc.
    rewrite (IH _ Hs), append_assoc. reflexivity.
Qed.

(** The last field only depends on what follows the last separator. *)
Lemma split_on_from_last (sep : ascii) (a b cur d : string) :
  last (Py.split_on_from sep cur (a ++ String sep b)) d =
  last (Py.split_on_from sep EmptyString b) d.
Proof.
  revert cur. induction a as [|c a IH]; intros cur; cbn.
  - rewrite Ascii.eqb_refl.
    destruct (Py.split_on_from sep EmptyString b) eqn:E; [|reflexivity].
    now apply split_on_from_nonempty in E.
  - destruct (Ascii.eqb c sep).
    + specialize (IH EmptyString).
      destruct (Py.split_on_from sep EmptyString (a ++ String sep b)) eqn:E;
        [now apply split_on_from_nonempty in E|exact IH].
    + apply IH.
Qed.

(** X1. For a city string "prefix,country" whose country part holds no
    comma, the raw country the loop derives is that country part with the
    white space at its two ends removed, whatever the prefix (commas
    included), and the country stored is the alias of that raw country, or
    the raw country itself when it has none. *)
Theorem country_is_text_after_last_comma
        (prefix country : string)
        (Hcomma : contains "," country = false) :
  raw_country (prefix ++ String "," country) = Py.strip country
  /\ country_of (prefix ++ String "," country) =
     Py.dict_get String.eqb COUNTRY_MAPPING (Py.strip country)
                 (Py.strip country).
Proof.
  assert (H : raw_country (prefix ++ String "," country) = Py.strip country).
  { unfold raw_country, Py.split_on. rewrite split_on_from_last.
    rewrite (split_on_from_no_sep _ _ _ Hcomma). reflexivity. }
  split; [exact H|]. unfold country_of. rewrite H. reflexivity.
Qed.

Lemma country_is_text_after_last_comma_witness :
  contains "," (" South Africa" ++ no_break_space)%string = false
  /\ raw_country ("Cape Town, Western Cape"
                    ++ String "," (" South Africa" ++ no_break_space))
     = "South Africa".
Proof.
  split; [reflexivity|].
  exact (proj1 (country_is_text_after_last_comma
                  "Cape Town, Western Cape"
                  (" South Africa" ++ no_break_space)%string eq_refl)).
Defined.

(** X2. The alias table changes four raw countries only (UK, US, UAE and
    Turkey); every other raw country, the four further keys of the table
    included, is stored as it is. *)
Theorem alias_table_changes_four_countries (city : string) :
  (raw_country city = "UK" /\ country_of city = "United Kingdom")
  \/ (raw_country city = "US" /\ country_of city = "United States")
  \/ (raw_country city = "UAE" /\ country_of city = "United Arab Emirates")
  \/ (raw_country city = "Turkey" /\ country_of city = "Turkiye")
  \/ (country_of city = raw_country city
      /\ ~ In (raw_country city) ["UK"; "US"; "UAE"; "Turkey"]).
Proof.
  unfold country_of. generalize (raw_country city). intros raw.
  unfold COUNTRY_MAPPING. cbn [Py.dict_get].
  destruct (String.eqb_spec "UK" raw) as [<-|H1]; [now left|].
  destruct (String.eqb_spec "US" raw) as [<-|H2]; [right; now left|].
  destruct (String.eqb_spec "UAE" raw) as [<-|H3]; [do 2 right; now left|].
  destruct (String.eqb_spec "Turkey" raw) as [<-|H4]; [do 3 right; now left|].
  do 4 right. split.
  - repeat match goal with
           | |- context [String.eqb ?k raw] =>
               destruct (String.eqb_spec k raw) as [<-|?]; [reflexivity|]
           end.
    reflexivity.
  - cbn. intros [H|[H|[H|[H|[]]]]]; congruence.
Qed.

(** X3. [fetch_coordinates] returns either both coordinates or none. When it
    returns both, nothing was logged and they are the latitude and longitude
    of the first element of a 200 answer; further elements are ignored. *)
Theorem coordinates_come_in_pairs (w : world) (city : string) :
  match snd (fetch_coordinates w city) with
  | (Some la, Some lo) =>
      fst (fetch_coordinates w city) = []
      /\ exists item items,
          geocode w city = GeoReply 200 (GeoArray (item :: items))
          /\ lat item = Some la /\ lon item = Some lo
  | (None, None) => True
  | _ => False
  end.
Proof.
  unfold fetch_coordinates.
  destruct (geocode w city) as [|status body]; [exact I|].
  destruct (Z.eqb_spec status 200) as [->|Hs]; [|exact I].
  destruct body as [|[|item items]]; try exact I.
  destruct (lat item) as [la|] eqn:Hla, (lon item) as [lo|] eqn:Hlo;
    cbn; try exact I.
  split; [reflexivity|]. exists item, items. auto.
Qed.

(** X4. For every integer weather code the category exists (indexing the
    split description never fails) and is one of nine words. *)
Theorem weather_main_is_one_of_nine (code : Z) :
  exists m, WeatherCode.weather_main code = Some m /\ In m categories.
Proof.
  unfold WeatherCode.weather_main.
  destruct ((1 <=? code) && (code <=? 3)) eqn:E.
  - exists "Clouds". split; [reflexivity|now left].
  - destruct (WeatherCode.mapped code) eqn:Hm.
    + apply WeatherCodeFacts.mapped_in in Hm. revert Hm.
      generalize (WeatherCode.weather_desc code). intros d.
      unfold WeatherCode.descriptions. cbn [In]. intros H.
      repeat (destruct H as [H|H];
              [injection H as <- <-;
               first [discriminate E
                     |eexists; split; [reflexivity|cbn; tauto]]|]).
      contradiction.
    + rewrite (WeatherCodeFacts.unmapped_desc _ Hm),
        WeatherCodeFacts.split_ws_weather_code.
      exists "Weather". split; [reflexivity|cbn; tauto].
Qed.

End ParsingFacts.

(* ------------------------------------------------------------------ *)
(** ** More on the weather loader *)

Module LoaderFacts.
Import Warehouse EtlWeather Props Queries.

(** *** Upsert and lookup *)

Lemma find_set_country (name country : string) (rows : list city_row)
      (r : city_row) :
  find_city name rows = Some r ->
  find_city name (set_country name country rows) =
  Some {| dcity_city_id := dcity_city_id r;
          dcity_city_name := name;
          dcity_country_name := country |}.
Proof.
  induction rows as [|r' rows IH]; cbn; [discriminate|].
  destruct (String.eqb_spec (dcity_city_name r') name) as [E|E]; cbn.
  - intros H; injection H as <-. rewrite E, String.eqb_refl. reflexivity.
  - intros H. apply String.eqb_neq in E. rewrite E. now apply IH.
Qed.

Lemma find_set_country_other (name other country : string)
      (rows : list city_row) :
  other <> name ->
  find_city other (set_country name country rows) = find_city other rows.
Proof.
  intros Hne. induction rows as [|r' rows IH]; cbn; [reflexivity|].
  destruct (String.eqb_spec (dcity_city_name r') name) as [E|E]; cbn.
  - rewrite E. apply not_eq_sym, String.eqb_neq in Hne. now rewrite Hne.
  - destruct (String.eqb (dcity_city_name r') other); [reflexivity|exact IH].
Qed.

Lemma find_city_app (name : string) (rows rows' : list city_row) :
  find_city name (rows ++ rows') =
  match find_city name rows with
  | Some r => Some r
  | None => find_city name rows'
  end.
Proof.
  induction rows as [|r rows IH]; cbn; [reflexivity|].
  destruct (String.eqb (dcity_city_name r) name); [reflexivity|exact IH].
Qed.

(** Setting the country a row already has changes nothing. *)
Lemma set_country_same (name country : string) (rows : list city_row)
      (r : city_row) :
  find_city name rows = Some r -> dcity_country_name r = country ->
  set_country name country rows = rows.
Proof.
  induction rows as [|r' rows IH]; cbn; [discriminate|].
  destruct (String.eqb (dcity_city_name r') name).
  - intros H Hc; injection H as <-. destruct r'; cbn in *. now subst.
  - intros H Hc. now rewrite (IH H Hc).
Qed.

Lemma upsert_city_found (fresh : Z) (name country : string)
      (rows : list city_row) :
  find_city name (fst (upsert_city fresh name country rows)) =
  Some {| dcity_city_id := snd (upsert_city fresh name country rows);
          dcity_city_name := name;
          dcity_country_name := country |}.
Proof.
  unfold upsert_city. destruct (find_city name rows) as [r|] eqn:E; cbn.
  - now apply find_set_country.
  - rewrite find_city_app, E. cbn. now rewrite String.eqb_refl.
Qed.

(** X5. After the city upsert, looking the name up gives one row: the id
    the statement returned, the name, the country just given. The id is the
    one the name had before when it was known, the proposed one otherwise,
    and the lookup of every other name is unchanged. *)
Theorem upsert_then_find (fresh : Z) (name country : string)
        (rows : list city_row) :
  find_city name (fst (upsert_city fresh name country rows)) =
    Some {| dcity_city_id := snd (upsert_city fresh name country rows);
            dcity_city_name := name;
            dcity_country_name := country |}
  /\ (forall r, find_city name rows = Some r ->
                snd (upsert_city fresh name country rows) = dcity_city_id r)
  /\ (find_city name rows = None ->
      snd (upsert_city fresh name country rows) = fresh)
  /\ (forall other, other <> name ->
        find_city other (fst (upsert_city fresh name country rows)) =
        find_city other rows).
Proof.
  split; [apply upsert_city_found|].
  unfold upsert_city.
  destruct (find_city name rows) as [r|] eqn:E; cbn [fst snd].
  - split; [intros r' H; now injection H as <-|].
    split; [discriminate|].
    intros other Hne. now apply find_set_country_other.
  - split; [discriminate|]. split; [reflexivity|].
    intros other Hne. rewrite find_city_app. cbn.
    apply String.eqb_neq in Hne. rewrite String.eqb_sym, Hne.
    now destruct (find_city other rows).
Qed.

(** *** Invariants of the loader *)

(** X6. In every state the weather loader can bring the warehouse to, no two
    [dim_city] rows share a name and no two share an id, in the committed
    tables as in the open transaction, and every id is below the sequence
    value. *)
Theorem city_names_and_ids_are_unique (k : conn) (Hk : reachable k) :
  NoDup (names (committed k)) /\ NoDup (ids (committed k))
  /\ NoDup (names (working k)) /\ NoDup (ids (working k))
  /\ Forall (fun i => i < city_seq k) (ids (committed k))
  /\ Forall (fun i => i < city_seq k) (ids (working k)).
Proof.
  destruct (LoopFacts.reachable_consistent k Hk)
    as [[_ Hb1 Hn1 Hi1] [_ Hb2 Hn2 Hi2]].
  repeat split; assumption.
Qed.

Lemma city_names_and_ids_are_unique_witness :
  reachable
    (state_of (process_city Examples.fair_world Examples.nairobi
       (state_of (process_city Examples.fair_world Examples.mombasa
                               Examples.after_nairobi))))
  /\ NoDup (names (committed
       (state_of (process_city Examples.fair_world Examples.nairobi
          (state_of (process_city Examples.fair_world Examples.mombasa
                                  Examples.after_nairobi)))))).
Proof.
  assert (H : reachable
    (state_of (process_city Examples.fair_world Examples.nairobi
       (state_of (process_city Examples.fair_world Examples.mombasa
                               Examples.after_nairobi))))).
  { do 3 apply reach_city. apply reach_fresh. }
  split; [exact H|].
  exact (proj1 (city_names_and_ids_are_unique _ H)).
Defined.

Lemma process_city_dim_country (w : world) (city : string) (k : conn)
      (rows : list country_row) :
  dim_country (committed k) = rows /\ dim_country (working k) = rows ->
  dim_country (committed (state_of (process_city w city k))) = rows
  /\ dim_country (working (state_of (process_city w city k))) = rows.
Proof.
  intros [Hc Hw].
  destruct (LoopFacts.process_city_states w city k)
    as [->|[->|[->|[->|[r [Hr [->| ->]]]]]]]; cbn; auto.
Qed.

(** X7. A run of the weather loader on a fresh connection, however it
    ends, keeps every [dim_city] row (by id and name) and every snapshot
    that was committed before, and leaves [dim_country] as it was. *)
Theorem weather_loader_only_adds
        (w : world) (cities : list string) (k : conn)
        (Hopen : working k = committed k) :
  extends (committed k) (durable (fetch_and_load_weather_on w cities k))
  /\ dim_country (durable (fetch_and_load_weather_on w cities k))
     = dim_country (committed k).
Proof.
  rewrite LoopFacts.run_durable. split.
  - apply LoopFacts.for_each_extends. rewrite Hopen.
    apply LoopFacts.extends_refl.
  - apply (LoopFacts.for_each_preserves
             (fun k' => dim_country (committed k') = dim_country (committed k)
                        /\ dim_country (working k') = dim_country (committed k))
             w cities).
    + intros city k'. apply process_city_dim_country.
    + rewrite Hopen. split; reflexivity.
Qed.

Lemma weather_loader_only_adds_witness :
  working Examples.after_nairobi = committed Examples.after_nairobi
  /\ extends (committed Examples.after_nairobi)
       (durable (fetch_and_load_weather_on
                   Examples.incomplete_forecast_world
                   [Examples.mombasa; Examples.kisumu] Examples.after_nairobi)).
Proof.
  split; [reflexivity|].
  exact (proj1 (weather_loader_only_adds
                  Examples.incomplete_forecast_world
                  [Examples.mombasa; Examples.kisumu] Examples.after_nairobi
                  eq_refl)).
Defined.

(** *** Exceptions that leave the loop *)

Lemma geo_log_cases (w : world) (city : string) :
  geo_log w city = [] \/ geo_log w city = [LogWarning city].
Proof.
  unfold geo_log, fetch_coordinates.
  destruct (geocode w city) as [|status [|[|[[la|] [lo|]] items]]];
    try destruct (status =? 200); cbn; auto.
Qed.

Lemma forecast_row_raised (w : world) (city : string) (id : Z) (e : exn) :
  forecast_row w city id = Raised e -> forecast_failure w city e.
Proof.
  unfold forecast_row, forecast_failure.
  destruct (forecast w city) as [|status body].
  - intros H; injection H as <-. now left.
  - destruct (Z.eqb_spec status 200) as [->|Hs]; [|discriminate].
    intros H. right.
    destruct body as [| | |data].
    { injection H as <-. now left. }
    { injection H as <-. right; left. split; [reflexivity|now left]. }
    { injection H as <-. do 2 right. exists NoCurrent, "current". cbn. tauto. }
    destruct (weather_code data) as [[code|]|] eqn:Hcode.
    + do 2 right. exists (Current data). unfold missing_fields. rewrite Hcode.
      destruct (LoopFacts.weather_main_some code) as [m Hm]. rewrite Hm in H.
      destruct (temperature_2m data);
        [|injection H as <-; exists "temperature_2m"; cbn; tauto].
      destruct (apparent_temperature data);
        [|injection H as <-; exists "apparent_temperature"; cbn; tauto].
      destruct (relative_humidity_2m data);
        [|injection H as <-; exists "relative_humidity_2m"; cbn; tauto].
      destruct (wind_speed_10m data);
        [discriminate H|injection H as <-; exists "wind_speed_10m"; cbn; tauto].
    + injection H as <-. right; left. split; [reflexivity|].
      right. now exists data.
    + injection H as <-. do 2 right. exists (Current data), "weather_code".
      unfold missing_fields. rewrite Hcode. cbn. tauto.
Qed.

Lemma forecast_row_some_complete (w : world) (city : string) (id : Z)
      (r : snapshot_row) :
  forecast_row w city id = Ok (Some r) -> forecast_complete w city = true.
Proof.
  unfold forecast_row, forecast_complete.
  destruct (forecast w city) as [|status body]; [discriminate|].
  destruct (status =? 200); [|discriminate]. cbn [andb].
  destruct body as [| | |data]; try discriminate.
  unfold missing_fields, integer_code.
  destruct (weather_code data) as [[code|]|]; try discriminate.
  destruct (WeatherCode.weather_main code); [|discriminate].
  destruct (temperature_2m data); [|discriminate].
  destruct (apparent_temperature data); [|discriminate].
  destruct (relative_humidity_2m data); [|discriminate].
  destruct (wind_speed_10m data); [reflexivity|discriminate].
Qed.

(** An iteration raises on an exception of the forecast step, or on a
    database error whose rollback fails. *)
Lemma process_city_raised (w : world) (city : string) (k : conn) (e : exn) :
  result_of (process_city w city k) = Raised e ->
  geocoded w city = true
  /\ (forecast_row w city (upsert_id city k) = Raised e
      \/ (e = DbError /\ db_error_occurs w city = true
          /\ db_fails w city OpRollback = true)).
Proof.
  rewrite LoopFacts.process_city_flat_eq.
  unfold process_city_flat, handled, db_error_occurs.
  destruct (geocoded w city); cbn [negb]; [|discriminate].
  destruct (db_fails w city OpCityUpsert).
  { destruct (db_fails w city OpRollback); [|discriminate].
    intros H; injection H as <-. split; [reflexivity|]. right. auto. }
  destruct (forecast_row w city (upsert_id city k)) as [[r|]|e'] eqn:Hrow;
    try discriminate.
  - rewrite (forecast_row_some_complete _ _ _ _ Hrow). cbn [orb andb].
    destruct (db_fails w city OpSnapshotInsert);
      [|destruct (db_fails w city OpCommit); [|discriminate]];
      (destruct (db_fails w city OpRollback); [|discriminate]);
      intros H; injection H as <-; (split; [reflexivity|]); right; auto.
  - intros H; injection H as <-. auto.
Qed.

Lemma process_city_never_closes (w : world) (city : string) (k : conn) :
  filter is_close (events_of (process_city w city k)) = [].
Proof.
  rewrite LoopFacts.process_city_flat_eq. unfold process_city_flat, handled.
  destruct (geo_log_cases w city) as [-> | ->];
    repeat match goal with
           | |- context [if ?b then _ else _] => destruct b
           | |- context [match ?x with _ => _ end] => destruct x
           end; reflexivity.
Qed.

Lemma for_each_raised (w : world) (cities : list string) :
  forall k e,
    result_of (for_each cities (process_city w) k) = Raised e ->
    exists city,
      In city cities /\ geocoded w city = true
      /\ (forecast_failure w city e
          \/ (e = DbError /\ db_error_occurs w city = true
              /\ db_fails w city OpRollback = true)).
Proof.
  induction cities as [|city rest IH]; intros k e; [discriminate|].
  rewrite LoopFacts.for_each_cons.
  destruct (result_of (process_city w city k)) as [[]|e'] eqn:E.
  - intros H. destruct (IH _ _ H) as [c [Hin H']].
    exists c. split; [now right|exact H'].
  - intros H. injection H as <-. apply process_city_raised in E.
    destruct E as [Hg [Hrow|Hdb]].
    + exists city. split; [now left|]. split; [exact Hg|]. left.
      eapply forecast_row_raised. exact Hrow.
    + exists city. split; [now left|]. auto.
Qed.

Lemma for_each_never_closes (w : world) (cities : list string) :
  forall k, filter is_close (events_of (for_each cities (process_city w) k)) = [].
Proof.
  induction cities as [|city rest IH]; intros k; [reflexivity|].
  rewrite LoopFacts.for_each_cons.
  destruct (result_of (process_city w city k)).
  - change (filter is_close
              (events_of (process_city w city k) ++
               events_of (for_each rest (process_city w)
                                   (state_of (process_city w city k)))) = []).
    now rewrite filter_app, process_city_never_closes, IH.
  - apply process_city_never_closes.
Qed.

(** X8. When the loop over the cities ends with an exception, the run ends
    there, without closing the connection, and the exception was raised in
    the iteration of a geocoded city of the list: by its forecast (the
    exception of the request itself; the decoding error of a 200 answer that
    is no JSON; the [TypeError] of a 200 answer that is no object or whose
    weather code is no number; the [KeyError] of one of the six keys the loop
    reads from a 200 answer), or by the rollback of the handler, failing
    after a database call of that iteration had failed. The connection made
    before the loop is outside this statement. *)
Theorem only_forecast_errors_end_the_run
        (w : world) (cities : list string) (k : conn) (e : exn)
        (Hraised : result_of (for_each cities (process_city w) k) = Raised e) :
  fetch_and_load_weather_on w cities k = for_each cities (process_city w) k
  /\ filter is_close (events_of (fetch_and_load_weather_on w cities k)) = []
  /\ exists city,
      In city cities /\ geocoded w city = true
      /\ ((forecast w city = ForecastRaises /\ e = RequestException)
          \/ (forecast w city = ForecastReply 200 NotJson
              /\ e = JSONDecodeError)
          \/ (e = TypeError
              /\ (forecast w city = ForecastReply 200 NotAnObject
                  \/ exists data,
                       forecast w city = ForecastReply 200 (Current data)
                       /\ weather_code data = Some CodeNotNumber))
          \/ (exists body key,
                 forecast w city = ForecastReply 200 body
                 /\ missing_fields body = true
                 /\ e = KeyError key /\ In key forecast_keys)
          \/ (e = DbError /\ db_error_occurs w city = true
              /\ db_fails w city OpRollback = true)).
Proof.
  pose proof (LoopFacts.run_state w cities k) as Hrun. cbv zeta in Hrun.
  rewrite Hraised in Hrun.
  destruct (for_each_raised w cities k e Hraised) as [city [Hin [Hg Hcases]]].
  split; [exact Hrun|]. split.
  - rewrite Hrun. apply for_each_never_closes.
  - exists city. split; [exact Hin|]. split; [exact Hg|].
    unfold forecast_failure in Hcases. tauto.
Qed.

Lemma only_forecast_errors_end_the_run_witness :
  result_of (for_each [Examples.mombasa; Examples.kisumu]
                      (process_city Examples.incomplete_forecast_world)
                      Examples.after_nairobi)
  = Raised (KeyError "weather_code")
  /\ fetch_and_load_weather_on Examples.incomplete_forecast_world
       [Examples.mombasa; Examples.kisumu] Examples.after_nairobi
     = for_each [Examples.mombasa; Examples.kisumu]
                (process_city Examples.incomplete_forecast_world)
                Examples.after_nairobi.
Proof.
  assert (H : result_of (for_each [Examples.mombasa; Examples.kisumu]
                           (process_city Examples.incomplete_forecast_world)
                           Examples.after_nairobi)
              = Raised (KeyError "weather_code")) by reflexivity.
  split; [exact H|].
  exact (proj1 (only_forecast_errors_end_the_run _ _ _ _ H)).
Defined.

(** *** Runs and iterations that change nothing *)

Lemma geo_log_no_statement (w : world) (city : string) :
  filter is_statement (geo_log w city) = []
  /\ filter is_commit (geo_log w city) = [].
Proof. destruct (geo_log_cases w city) as [-> | ->]; split; reflexivity. Qed.

(** X9. When no city of the list is geocoded (the list may be empty), the
    run returns, sends no statement and no commit, and only closes the
    connection. *)
Theorem nothing_geocoded_nothing_written
        (w : world) (cities : list string) (k : conn)
        (Hnone : Forall (fun city => geocoded w city = false) cities) :
  result_of (fetch_and_load_weather_on w cities k) = Ok tt
  /\ state_of (fetch_and_load_weather_on w cities k) = rolled_back k
  /\ filter is_statement (events_of (fetch_and_load_weather_on w cities k)) = []
  /\ filter is_commit (events_of (fetch_and_load_weather_on w cities k)) = [].
Proof.
  assert (Hloop : result_of (for_each cities (process_city w) k) = Ok tt
                  /\ state_of (for_each cities (process_city w) k) = k
                  /\ filter is_statement
                       (events_of (for_each cities (process_city w) k)) = []
                  /\ filter is_commit
                       (events_of (for_each cities (process_city w) k)) = []).
  { induction Hnone as [|city rest Hcity _ IH]; [repeat split|].
    rewrite LoopFacts.for_each_cons,
      (LoopFacts.not_geocoded_skips w city k Hcity).
    unfold result_of at 1, state_of at 1 2 3 4, events_of at 1 3 5;
      cbn [fst snd].
    destruct IH as [H1 [H2 [H3 H4]]].
    destruct (geo_log_no_statement w city) as [H5 H6].
    unfold after_events, result_of, state_of, events_of in *; cbn [fst snd].
    rewrite !filter_app, H3, H4, H5, H6. auto. }
  destruct Hloop as [H1 [H2 [H3 H4]]].
  pose proof (LoopFacts.run_state w cities k) as Hrun. cbv zeta in Hrun.
  rewrite H1 in Hrun. rewrite Hrun.
  unfold result_of, state_of, events_of in *; cbn [fst snd].
  rewrite !filter_app, H3, H4, H2. repeat split.
Qed.

Lemma nothing_geocoded_nothing_written_witness :
  Forall (fun city =>
            geocoded (Examples.geocoding_mombasa (GeoReply 200 (GeoArray [])))
                     city = false) [Examples.mombasa]
  /\ state_of (fetch_and_load_weather_on
                 (Examples.geocoding_mombasa (GeoReply 200 (GeoArray [])))
                 [Examples.mombasa] Examples.after_nairobi)
     = rolled_back Examples.after_nairobi.
Proof.
  assert (H : Forall (fun city =>
            geocoded (Examples.geocoding_mombasa (GeoReply 200 (GeoArray [])))
                     city = false) [Examples.mombasa])
    by (constructor; [reflexivity|constructor]).
  split; [exact H|].
  exact (proj1 (proj2 (nothing_geocoded_nothing_written _ _ _ H))).
Defined.

(** *** A city that loads *)

Lemma city_loads_parts (w : world) (city : string) :
  city_loads w city = true ->
  geocoded w city = true /\ forecast_complete w city = true
  /\ db_healthy w city = true.
Proof.
  unfold city_loads. intros H.
  apply andb_true_iff in H. destruct H as [H Hh].
  apply andb_true_iff in H. destruct H as [Hg Hf]. auto.
Qed.

Lemma tables_eq (t t' : tables) :
  dim_country t = dim_country t' -> dim_city t = dim_city t' ->
  fact_weather_snapshot t = fact_weather_snapshot t' -> t = t'.
Proof. destruct t, t'; cbn; intros -> -> ->; reflexivity. Qed.

(** X10. For a city that loads, the iteration sends the upsert, the insert
    and the commit, and ends with nothing pending; the committed [dim_city]
    holds the row of the city under the returned id with the country of the
    alias table, and the committed snapshots hold a row with that id and
    the timestamp the database gave. *)
Theorem loaded_city_is_committed
        (w : world) (city : string) (k : conn)
        (Hloads : city_loads w city = true) :
  result_of (process_city w city k) = Ok tt
  /\ map is_statement (events_of (process_city w city k))
     = [true; true; false; false]
  /\ filter is_commit (events_of (process_city w city k)) = [Commit]
  /\ working (state_of (process_city w city k))
     = committed (state_of (process_city w city k))
  /\ find_city city (dim_city (committed (state_of (process_city w city k))))
     = Some {| dcity_city_id := upsert_id city k;
               dcity_city_name := city;
               dcity_country_name := country_of city |}
  /\ exists s,
      In s (fact_weather_snapshot
              (committed (state_of (process_city w city k))))
      /\ snapshot_key s = (upsert_id city k, db_now w city).
Proof.
  destruct (city_loads_parts w city Hloads) as [Hg [Hf Hh]].
  destruct (LoopFacts.process_city_loaded w city k Hg Hf Hh) as [r [Hr ->]].
  apply LoopFacts.forecast_row_fields in Hr. destruct Hr as [Hid Hnow].
  unfold result_of, events_of, state_of; cbn [fst snd].
  repeat split.
  - apply upsert_city_found.
  - cbn [committed committed_all working inserted with_snapshots
         fact_weather_snapshot].
    destruct (TableFacts.insert_snapshot_key_stored r
                (fact_weather_snapshot (working (upserted city k))))
      as [s [Hs Hk]].
    exists s. split; [exact Hs|].
    rewrite Hk. unfold snapshot_key. now rewrite Hid, Hnow.
Qed.

Lemma loaded_city_is_committed_witness :
  city_loads Examples.fair_world Examples.mombasa = true
  /\ find_city Examples.mombasa
       (dim_city (committed (state_of (process_city Examples.fair_world
                                         Examples.mombasa
                                         Examples.after_nairobi))))
     = Some {| dcity_city_id := upsert_id Examples.mombasa Examples.after_nairobi;
               dcity_city_name := Examples.mombasa;
               dcity_country_name := country_of Examples.mombasa |}.
Proof.
  split; [reflexivity|].
  exact (proj1 (proj2 (proj2 (proj2 (proj2
    (loaded_city_is_committed Examples.fair_world Examples.mombasa
                              Examples.after_nairobi eq_refl)))))).
Defined.

(** X11. Loading a city again while the services answer the same and the
    database clock has not moved changes no table: the upsert finds the row
    and rewrites the same country, the insert meets its own conflict key,
    and the commit stores what was stored. *)
Theorem loading_twice_changes_nothing
        (w : world) (city : string) (k : conn)
        (Hloads : city_loads w city = true) :
  result_of (process_city w city (state_of (process_city w city k))) = Ok tt
  /\ committed (state_of (process_city w city (state_of (process_city w city k))))
     = committed (state_of (process_city w city k))
  /\ working (state_of (process_city w city (state_of (process_city w city k))))
     = working (state_of (process_city w city k)).
Proof.
  destruct (city_loads_parts w city Hloads) as [Hg [Hf Hh]].
  destruct (LoopFacts.process_city_loaded w city k Hg Hf Hh) as [r1 [Hr1 E1]].
  rewrite E1. unfold result_of, state_of; cbn [fst snd].
  set (k1 := committed_all (inserted r1 (upserted city k))).
  destruct (LoopFacts.process_city_loaded w city k1 Hg Hf Hh) as [r2 [Hr2 E2]].
  rewrite E2; cbn [fst snd].
  assert (Hfound : find_city city (dim_city (working k1)) =
                   Some {| dcity_city_id := upsert_id city k;
                           dcity_city_name := city;
                           dcity_country_name := country_of city |})
    by apply upsert_city_found.
  assert (Hid : upsert_id city k1 = upsert_id city k).
  { unfold upsert_id at 1, upsert_city. now rewrite Hfound. }
  assert (Hrows : fst (upsert_city (city_seq k1) city (country_of city)
                                   (dim_city (working k1)))
                  = dim_city (working k1)).
  { unfold upsert_city. rewrite Hfound. cbn [fst].
    eapply set_country_same; [exact Hfound|reflexivity]. }
  assert (Hr : r2 = r1).
  { rewrite Hid, Hr1 in Hr2. now injection Hr2 as ->. }
  subst r2.
  assert (Hfact : insert_snapshot r1 (fact_weather_snapshot (working k1))
                  = fact_weather_snapshot (working k1)).
  { cbn [k1 working committed_all inserted with_snapshots
         fact_weather_snapshot].
    destruct (TableFacts.insert_snapshot_key_stored r1
                (fact_weather_snapshot (working (upserted city k))))
      as [s [Hs Hk]].
    now apply (TableFacts.insert_snapshot_conflict r1 s). }
  assert (Hw : working (inserted r1 (upserted city k1)) = working k1).
  { apply tables_eq; [reflexivity|exact Hrows|exact Hfact]. }
  split; [reflexivity|].
  cbn [committed working committed_all]. rewrite Hw. split; reflexivity.
Qed.

Lemma loading_twice_changes_nothing_witness :
  city_loads Examples.fair_world Examples.nairobi = true
  /\ committed (state_of (process_city Examples.fair_world Examples.nairobi
                            (state_of (process_city Examples.fair_world
                                         Examples.nairobi fresh_warehouse))))
     = committed (state_of (process_city Examples.fair_world Examples.nairobi
                                         fresh_warehouse)).
Proof.
  split; [reflexivity|].
  exact (proj1 (proj2 (loading_twice_changes_nothing
                         Examples.fair_world Examples.nairobi
                         fresh_warehouse eq_refl))).
Defined.

(** X12. One iteration sends at most one city upsert and at most one
    snapshot insert, and ends its transaction at most once, by a commit or
    by a rollback, never both; it commits only after both statements went
    through, and it never closes the connection. *)
Theorem iteration_sends_at_most_one_of_each
        (w : world) (city : string) (k : conn) :
  (List.length (filter is_city_upsert (events_of (process_city w city k)))
   <= 1)%nat
  /\ (List.length (filter is_snapshot_insert (events_of (process_city w city k)))
      <= 1)%nat
  /\ (List.length (filter is_commit (events_of (process_city w city k)))
      + List.length (filter is_rollback (events_of (process_city w city k)))
      <= 1)%nat
  /\ (filter is_commit (events_of (process_city w city k)) <> [] ->
      List.length (filter is_city_upsert (events_of (process_city w city k)))
      = 1%nat
      /\ List.length (filter is_snapshot_insert
                             (events_of (process_city w city k))) = 1%nat)
  /\ filter is_close (events_of (process_city w city k)) = [].
Proof.
  split; [|split; [|split; [|split; [|apply process_city_never_closes]]]];
    rewrite LoopFacts.process_city_flat_eq; unfold process_city_flat, handled;
    destruct (geo_log_cases w city) as [-> | ->];
    repeat match goal with
           | |- context [if ?b then _ else _] => destruct b
           | |- context [match ?x with _ => _ end] => destruct x
           end; cbn; try lia; try (intros _; split; reflexivity);
    intros H; now destruct H.
Qed.

(** *** One city row, one snapshot row *)









End LoaderFacts.

(* ------------------------------------------------------------------ *)
(** ** More on the happiness loader and the combined runner *)

Module CountryFacts.
Import Warehouse EtlHappiness Props Queries.

Lemma first_failure_none (fails : nat -> bool) (n : nat) :
  (forall i, fails i = false) ->
  forall start, first_failure fails start n = None.
Proof.
  intros H. induction n as [|n IH]; intros start; cbn; [reflexivity|].
  rewrite H. apply IH.
Qed.

Lemma first_failure_bounds (fails : nat -> bool) (n : nat) :
  forall start i,
    first_failure fails start n = Some i ->
    (start <= i < start + n)%nat /\ fails i = true.
Proof.
  induction n as [|n IH]; intros start i; cbn; [discriminate|].
  destruct (fails start) eqn:E.
  - intros H; injection H as <-. split; [lia|exact E].
  - intros H. apply IH in H. destruct H as [H1 H2]. split; [lia|exact H2].
Qed.

Lemma execute_refused (w : db_world) (i : nat) (r : csv_row) (k : conn) :
  execute_fails w i = true ->
  execute_country_upsert w (i, r) k = ([], k, Raised DbError).
Proof. unfold execute_country_upsert. cbn. now intros ->. Qed.

Lemma execute_accepted (w : db_world) (i : nat) (r : csv_row) (k : conn) :
  execute_fails w i = false ->
  execute_country_upsert w (i, r) k =
  ([CountryUpsert (to_country_row r)],
   {| committed := committed k;
      working :=
        {| dim_country := upsert_country (to_country_row r)
                                         (dim_country (working k));
           dim_city := dim_city (working k);
           fact_weather_snapshot := fact_weather_snapshot (working k) |};
      city_seq := city_seq k |},
   Ok tt).
Proof. unfold execute_country_upsert. cbn. now intros ->. Qed.

(** The row loop, whatever the database does: it commits nothing, leaves
    the weather tables alone, and stops at the first failing [execute]. *)
Lemma upserts_until_failure (w : db_world) (df : list csv_row) :
  forall (start : nat) (k : conn),
  exists k',
    committed k' = committed k
    /\ dim_city (working k') = dim_city (working k)
    /\ fact_weather_snapshot (working k') = fact_weather_snapshot (working k)
    /\ city_seq k' = city_seq k
    /\ match first_failure (execute_fails w) start (List.length df) with
       | None =>
           for_each (combine (seq start (List.length df)) df)
                    (execute_country_upsert w) k
           = (map (fun r => CountryUpsert (to_country_row r)) df, k', Ok tt)
           /\ dim_country (working k')
              = upsert_all df (dim_country (working k))
       | Some i =>
           for_each (combine (seq start (List.length df)) df)
                    (execute_country_upsert w) k
           = (map (fun r => CountryUpsert (to_country_row r))
                  (firstn (i - start) df), k', Raised DbError)
       end.
Proof.
  induction df as [|r df IH]; intros start k.
  - exists k. repeat split.
  - cbn [List.length seq combine for_each first_failure].
    unfold bind.
    destruct (execute_fails w start) eqn:E.
    + rewrite (execute_refused w start r k E).
      exists k. rewrite Nat.sub_diag. repeat split.
    + rewrite (execute_accepted w start r k E).
      match goal with
      | |- context [for_each _ _ ?k1] =>
          destruct (IH (S start) k1) as [k' [H1 [H2 [H3 [H4 H5]]]]]
      end.
      exists k'. cbn in H1, H2, H3, H4.
      split; [exact H1|]. split; [exact H2|]. split; [exact H3|].
      split; [exact H4|].
      destruct (first_failure (execute_fails w) (S start) (List.length df))
        as [i|] eqn:F.
      * apply first_failure_bounds in F. destruct F as [F _].
        replace (i - start)%nat with (S (i - S start)) by lia.
        rewrite H5. reflexivity.
      * destruct H5 as [H5 H6]. rewrite H5. split; [reflexivity|exact H6].
Qed.

(** The whole loader, by what the database does. *)
Lemma load_happiness_data_outcome (w : db_world) (df : list csv_row) (k : conn) :
  exists k',
    committed k' = committed k
    /\ dim_city (working k') = dim_city (working k)
    /\ fact_weather_snapshot (working k') = fact_weather_snapshot (working k)
    /\ match first_failure (execute_fails w) 0 (List.length df) with
       | Some i =>
           load_happiness_data w df k =
           (PrintOriginalColumns
              :: map (fun r => CountryUpsert (to_country_row r)) (firstn i df),
            k', Raised DbError)
       | None =>
           dim_country (working k') = upsert_all df (dim_country (working k))
           /\ if commit_fails w
              then load_happiness_data w df k =
                   (PrintOriginalColumns
                      :: map (fun r => CountryUpsert (to_country_row r)) df,
                    k', Raised DbError)
              else load_happiness_data w df k =
                   (PrintOriginalColumns
                      :: map (fun r => CountryUpsert (to_country_row r)) df
                      ++ [Commit; Close; PrintLoadedCountries (List.length df);
                          PrintTop5 (head df)],
                    committed_all k', Ok tt)
       end.
Proof.
  destruct (upserts_until_failure w df 0%nat k)
    as [k' [H1 [H2 [H3 [H4 H5]]]]].
  exists k'. split; [exact H1|]. split; [exact H2|]. split; [exact H3|].
  unfold load_happiness_data, iterrows, bind, emit. cbn [fst snd].
  destruct (first_failure (execute_fails w) 0 (List.length df)) as [i|].
  - rewrite H5, Nat.sub_0_r. reflexivity.
  - destruct H5 as [H5 H6]. split; [exact H6|]. rewrite H5.
    unfold commit, do_commit, close.
    destruct (commit_fails w); cbn [app fst snd]; rewrite ?app_nil_r;
      reflexivity.
Qed.

Lemma filter_upserts_none (f : event -> bool) (df : list csv_row) :
  (forall r, f (CountryUpsert r) = false) ->
  filter f (map (fun r => CountryUpsert (to_country_row r)) df) = [].
Proof.
  intros H. induction df as [|r df IH]; cbn; [reflexivity|].
  now rewrite H.
Qed.

(** X13. With a database that accepts every call and a fresh connection,
    the loader returns after one upsert per data row, in file order, and one
    commit: [dim_country] then is the table of before with the rows
    upserted one after the other, nothing is left pending, and [dim_city]
    and the snapshots are as they were. *)
Theorem load_commits_every_row
        (w : db_world) (df : list csv_row) (k : conn)
        (Hw : healthy w) (Hopen : working k = committed k) :
  result_of (load_happiness_data w df k) = Ok tt
  /\ filter is_country_upsert (events_of (load_happiness_data w df k))
     = map (fun r => CountryUpsert (to_country_row r)) df
  /\ filter Props.is_commit (events_of (load_happiness_data w df k)) = [Commit]
  /\ dim_country (committed (state_of (load_happiness_data w df k)))
     = upsert_all df (dim_country (committed k))
  /\ dim_city (committed (state_of (load_happiness_data w df k)))
     = dim_city (committed k)
  /\ fact_weather_snapshot (committed (state_of (load_happiness_data w df k)))
     = fact_weather_snapshot (committed k)
  /\ working (state_of (load_happiness_data w df k))
     = committed (state_of (load_happiness_data w df k)).
Proof.
  destruct Hw as [Hexec Hcommit].
  destruct (load_happiness_data_outcome w df k) as [k' [H1 [H2 [H3 H4]]]].
  rewrite (first_failure_none _ _ Hexec), Hcommit in H4.
  destruct H4 as [H4 ->].
  unfold result_of, events_of, state_of; cbn [fst snd committed_all committed
                                              working].
  rewrite Hopen in H2, H3, H4.
  split; [reflexivity|]. split.
  { cbn [filter is_country_upsert]. rewrite filter_app.
    rewrite HappinessFacts.filter_country_upserts. cbn. apply app_nil_r. }
  split.
  { cbn [filter Props.is_commit]. rewrite filter_app.
    rewrite filter_upserts_none by reflexivity. reflexivity. }
  auto.
Qed.

Lemma load_commits_every_row_witness :
  (healthy accepting /\ working fresh_warehouse = committed fresh_warehouse)
  /\ dim_country (committed (state_of (load_happiness_data
                                         accepting alphabetical_csv
                                         fresh_warehouse)))
     = upsert_all alphabetical_csv (dim_country (committed fresh_warehouse)).
Proof.
  assert (Hw : healthy accepting) by (split; reflexivity).
  split; [split; [exact Hw|reflexivity]|].
  exact (proj1 (proj2 (proj2 (proj2
    (load_commits_every_row accepting alphabetical_csv fresh_warehouse
                            Hw eq_refl))))).
Defined.

(** X14. When the database refuses the [execute] of some row, or the final
    commit, the loader raises that database error: the upserts sent are
    those of the rows before the first refused one, there is no commit and
    no close, nothing is printed after the column list, and the committed
    tables are exactly those of before. *)
Theorem failed_load_commits_nothing
        (w : db_world) (df : list csv_row) (k : conn)
        (Hfail : first_failure (execute_fails w) 0 (List.length df) <> None
                 \/ commit_fails w = true) :
  result_of (load_happiness_data w df k) = Raised DbError
  /\ committed (state_of (load_happiness_data w df k)) = committed k
  /\ (exists n,
         (n <= List.length df)%nat
         /\ events_of (load_happiness_data w df k) =
            PrintOriginalColumns
              :: map (fun r => CountryUpsert (to_country_row r)) (firstn n df)
         /\ (forall i,
               first_failure (execute_fails w) 0 (List.length df) = Some i ->
               n = i))
  /\ filter Props.is_commit (events_of (load_happiness_data w df k)) = []
  /\ filter is_close (events_of (load_happiness_data w df k)) = [].
Proof.
  destruct (load_happiness_data_outcome w df k) as [k' [H1 [_ [_ H4]]]].
  assert (Hshape : exists n,
             (n <= List.length df)%nat
             /\ load_happiness_data w df k =
                (PrintOriginalColumns
                   :: map (fun r => CountryUpsert (to_country_row r))
                          (firstn n df), k', Raised DbError)
             /\ (forall i,
                   first_failure (execute_fails w) 0 (List.length df) = Some i ->
                   n = i)).
  { destruct (first_failure (execute_fails w) 0 (List.length df))
      as [i|] eqn:F.
    - exists i. apply first_failure_bounds in F. destruct F as [F _].
      split; [lia|]. split; [exact H4|]. intros j Hj. now injection Hj.
    - destruct Hfail as [Hfail|Hfail]; [now destruct Hfail|].
      rewrite Hfail in H4. destruct H4 as [_ H4].
      exists (List.length df). split; [lia|].
      rewrite firstn_all. split; [exact H4|discriminate]. }
  destruct Hshape as [n [Hn [Hload Hfirst]]].
  rewrite Hload. unfold result_of, events_of, state_of; cbn [fst snd].
  split; [reflexivity|]. split; [exact H1|].
  split; [exists n; auto|].
  cbn [filter Props.is_commit is_close].
  rewrite !filter_upserts_none by reflexivity. split; reflexivity.
Qed.

Lemma failed_load_commits_nothing_witness :
  first_failure (execute_fails refusing_third) 0
                (List.length alphabetical_csv) <> None
  /\ result_of (load_happiness_data refusing_third alphabetical_csv
                                    fresh_warehouse) = Raised DbError
  /\ committed (state_of (load_happiness_data refusing_third alphabetical_csv
                                              fresh_warehouse))
     = committed fresh_warehouse.
Proof.
  assert (H : first_failure (execute_fails refusing_third) 0
                            (List.length alphabetical_csv) <> None)
    by discriminate.
  split; [exact H|].
  destruct (failed_load_commits_nothing refusing_third alphabetical_csv
                                        fresh_warehouse (or_introl H))
    as [H1 [H2 _]].
  split; [exact H1|exact H2].
Defined.

(** *** The country table after the upserts *)

Lemma find_upsert_country (r : country_row) (rows : list country_row) :
  find_country (dc_country_name r) (upsert_country r rows) = Some r.
Proof.
  induction rows as [|r' rows IH]; cbn.
  - now rewrite String.eqb_refl.
  - destruct (String.eqb (dc_country_name r') (dc_country_name r)) eqn:E; cbn.
    + now rewrite String.eqb_refl.
    + now rewrite E.
Qed.

Lemma find_upsert_country_other (name : string) (r : country_row)
      (rows : list country_row) :
  dc_country_name r <> name ->
  find_country name (upsert_country r rows) = find_country name rows.
Proof.
  intros Hne. apply String.eqb_neq in Hne.
  induction rows as [|r' rows IH]; cbn.
  - now rewrite Hne.
  - destruct (String.eqb_spec (dc_country_name r') (dc_country_name r))
      as [E|E]; cbn.
    + rewrite Hne, E, Hne. reflexivity.
    + destruct (String.eqb (dc_country_name r') name); [reflexivity|exact IH].
Qed.

Lemma in_names_upsert_country (n : string) (r : country_row)
      (rows : list country_row) :
  In n (map dc_country_name (upsert_country r rows)) ->
  n = dc_country_name r \/ In n (map dc_country_name rows).
Proof.
  induction rows as [|r' rows IH]; cbn.
  - intros [H|[]]; auto.
  - destruct (String.eqb_spec (dc_country_name r') (dc_country_name r))
      as [E|E]; cbn.
    + intros [H|H]; auto.
    + intros [H|H]; [auto|]. destruct (IH H); auto.
Qed.

Lemma upsert_country_names_unique (r : country_row) (rows : list country_row) :
  NoDup (map dc_country_name rows) ->
  NoDup (map dc_country_name (upsert_country r rows)).
Proof.
  induction rows as [|r' rows IH]; cbn; intros Hnd.
  - constructor; [tauto|constructor].
  - inversion Hnd as [|? ? Hnotin Hnd']; subst.
    destruct (String.eqb_spec (dc_country_name r') (dc_country_name r))
      as [E|E]; cbn.
    + rewrite <- E. constructor; assumption.
    + constructor; [|now apply IH].
      intros Hin. apply in_names_upsert_country in Hin.
      destruct Hin as [Hin|Hin]; [congruence|contradiction].
Qed.

Lemma find_upsert_all_other (name : string) (df : list csv_row) :
  ~ In name (map country_name df) ->
  forall rows, find_country name (upsert_all df rows) = find_country name rows.
Proof.
  unfold upsert_all.
  induction df as [|r df IH]; cbn; intros Hnotin rows; [reflexivity|].
  rewrite IH by tauto. apply find_upsert_country_other. cbn. tauto.
Qed.

Lemma upsert_all_names_unique (df : list csv_row) :
  forall rows,
    NoDup (map dc_country_name rows) ->
    NoDup (map dc_country_name (upsert_all df rows)).
Proof.
  unfold upsert_all.
  induction df as [|r df IH]; cbn; intros rows Hnd; [exact Hnd|].
  apply IH. now apply upsert_country_names_unique.
Qed.

Lemma upsert_all_app (df1 df2 : list csv_row) (rows : list country_row) :
  upsert_all (df1 ++ df2) rows = upsert_all df2 (upsert_all df1 rows).
Proof. unfold upsert_all. apply fold_left_app. Qed.

(** X15. After the upserts of a frame, the lookup of a country of the file
    gives the values of its last row in the file, with a NULL region; the
    lookup of a country that is not in the file is unchanged; and a table
    whose country names were unique still has unique names. *)
Theorem last_row_of_a_country_wins
        (before after : list csv_row) (r : csv_row) (rows : list country_row)
        (Hlast : ~ In (country_name r) (map country_name after)) :
  find_country (country_name r) (upsert_all (before ++ r :: after) rows)
  = Some (to_country_row r)
  /\ (forall row,
         find_country (country_name r) (upsert_all (before ++ r :: after) rows)
         = Some row -> dc_region row = None)
  /\ (forall name,
         ~ In name (map country_name (before ++ r :: after)) ->
         find_country name (upsert_all (before ++ r :: after) rows)
         = find_country name rows)
  /\ (NoDup (map dc_country_name rows) ->
      NoDup (map dc_country_name (upsert_all (before ++ r :: after) rows))).
Proof.
  assert (H : find_country (country_name r)
                           (upsert_all (before ++ r :: after) rows)
              = Some (to_country_row r)).
  { rewrite upsert_all_app.
    change (upsert_all (r :: after) ?t)
      with (upsert_all after (upsert_country (to_country_row r) t)).
    rewrite find_upsert_all_other by exact Hlast.
    apply (find_upsert_country (to_country_row r)). }
  split; [exact H|]. split; [|split].
  - intros row Hrow. rewrite H in Hrow. now injection Hrow as <-.
  - intros name Hname. now apply find_upsert_all_other.
  - apply upsert_all_names_unique.
Qed.

Lemma last_row_of_a_country_wins_witness :
  ~ In "Iceland" (map country_name [country "Sweden" 7%float])
  /\ find_country "Iceland"
       (upsert_all ([country "Iceland" 7.5%float]
                      ++ country "Iceland" 7.25%float
                      :: [country "Sweden" 7%float]) [])
     = Some (to_country_row (country "Iceland" 7.25%float)).
Proof.
  assert (H : ~ In (country_name (country "Iceland" 7.25%float))
                   (map country_name [country "Sweden" 7%float])).
  { cbn. intros [H|[]]. discriminate H. }
  split; [exact H|].
  exact (proj1 (last_row_of_a_country_wins
                  [country "Iceland" 7.5%float] [country "Sweden" 7%float]
                  (country "Iceland" 7.25%float) [] H)).
Defined.

(** X16. With a database that accepts every call and a file sorted by
    descending ladder score, the last thing the loader prints is the five
    highest scores of the file, after the number of data rows. *)
Theorem top5_of_a_ranked_file
        (w : db_world) (df : list csv_row) (k : conn)
        (Hw : healthy w) (Hranked : descending df = true) :
  exists ev,
    events_of (load_happiness_data w df k) =
    ev ++ [PrintLoadedCountries (List.length df); PrintTop5 (five_highest df)]
    /\ filter (fun e => match e with PrintTop5 _ => true | _ => false end) ev
       = [].
Proof.
  destruct (HappinessFacts.load_happiness_data_events w df k Hw) as [_ ->].
  rewrite (HappinessFacts.head_of_descending df Hranked).
  exists (PrintOriginalColumns
            :: map (fun r => CountryUpsert (to_country_row r)) df
            ++ [Commit; Close]).
  split.
  - cbn [app]. rewrite <- app_assoc. reflexivity.
  - cbn [filter]. rewrite filter_app.
    rewrite filter_upserts_none by reflexivity. reflexivity.
Qed.

Lemma top5_of_a_ranked_file_witness :
  (healthy accepting /\ descending ranked_csv = true)
  /\ exists ev,
      events_of (load_happiness_data accepting ranked_csv fresh_warehouse) =
      ev ++ [PrintLoadedCountries (List.length ranked_csv);
             PrintTop5 (five_highest ranked_csv)]
      /\ filter (fun e => match e with PrintTop5 _ => true | _ => false end) ev
         = [].
Proof.
  assert (Hw : healthy accepting) by (split; reflexivity).
  split; [split; [exact Hw|reflexivity]|].
  exact (top5_of_a_ranked_file accepting ranked_csv fresh_warehouse
                               Hw eq_refl).
Defined.

(** *** run_etl.py *)

Lemma weather_run_dim_country (w : EtlWeather.world) (cities : list string)
      (k : conn) :
  working k = committed k ->
  dim_country (EtlWeather.durable
                 (EtlWeather.fetch_and_load_weather_on w cities k))
  = dim_country (committed k).
Proof.
  intros Hopen. rewrite LoopFacts.run_durable.
  apply (LoopFacts.for_each_preserves
           (fun k' => dim_country (committed k') = dim_country (committed k)
                      /\ dim_country (working k') = dim_country (committed k))
           w cities).
  - intros city k'. apply LoaderFacts.process_city_dim_country.
  - rewrite Hopen. split; reflexivity.
Qed.

(** X17. In the combined runner, a database error of the happiness loader
    ends the process: the weather loader does not start (the events are the
    column list and the upserts sent so far), and the committed tables are
    those of before. *)
Theorem happiness_failure_stops_the_pipeline
        (hw : db_world) (df : list csv_row) (w : EtlWeather.world)
        (cities : list string) (k : conn)
        (Hfail : first_failure (execute_fails hw) 0 (List.length df) <> None
                 \/ commit_fails hw = true) :
  snd (RunEtl.run_etl hw df w cities k) = Raised DbError
  /\ committed (snd (fst (RunEtl.run_etl hw df w cities k))) = committed k
  /\ exists n,
      fst (fst (RunEtl.run_etl hw df w cities k)) =
      RunEtl.PrintStarting
        :: RunEtl.Script PrintOriginalColumns
        :: map (fun r => RunEtl.Script (CountryUpsert (to_country_row r)))
               (firstn n df).
Proof.
  destruct (load_happiness_data_outcome hw df k) as [k' [H1 [_ [_ H4]]]].
  assert (Hshape : exists n,
             load_happiness_data hw df k =
             (PrintOriginalColumns
                :: map (fun r => CountryUpsert (to_country_row r))
                       (firstn n df), k', Raised DbError)).
  { destruct (first_failure (execute_fails hw) 0 (List.length df)) as [i|].
    - now exists i.
    - destruct Hfail as [Hfail|Hfail]; [now destruct Hfail|].
      rewrite Hfail in H4. destruct H4 as [_ H4].
      exists (List.length df). now rewrite firstn_all. }
  destruct Hshape as [n Hload].
  unfold RunEtl.run_etl. rewrite Hload. cbn [fst snd].
  split; [reflexivity|]. split; [exact H1|].
  exists n. cbn [map]. rewrite map_map. reflexivity.
Qed.

Lemma happiness_failure_stops_the_pipeline_witness :
  first_failure (execute_fails refusing_third) 0
                (List.length alphabetical_csv) <> None
  /\ snd (RunEtl.run_etl refusing_third alphabetical_csv Examples.fair_world
                         Config.CITIES fresh_warehouse) = Raised DbError.
Proof.
  assert (H : first_failure (execute_fails refusing_third) 0
                            (List.length alphabetical_csv) <> None)
    by discriminate.
  split; [exact H|].
  exact (proj1 (happiness_failure_stops_the_pipeline
                  refusing_third alphabetical_csv Examples.fair_world
                  Config.CITIES fresh_warehouse (or_introl H))).
Defined.

(** X18. In the combined runner, once the happiness loader has returned,
    its countries are committed whatever the weather loader does
    afterwards: [dim_country] ends as the table of before with the rows of
    the file upserted, and the outcome of the runner is the outcome of the
    weather loader. *)
Theorem pipeline_keeps_loaded_countries
        (hw : db_world) (df : list csv_row) (w : EtlWeather.world)
        (cities : list string) (k : conn)
        (Hw : healthy hw) (Hopen : working k = committed k) :
  dim_country (committed (snd (fst (RunEtl.run_etl hw df w cities k))))
  = upsert_all df (dim_country (committed k))
  /\ snd (RunEtl.run_etl hw df w cities k) =
     result_of (EtlWeather.fetch_and_load_weather_on w cities
                  (connect (committed (state_of (load_happiness_data hw df k)))
                           (city_seq (state_of (load_happiness_data hw df k))))).
Proof.
  destruct Hw as [Hexec Hcommit].
  destruct (load_happiness_data_outcome hw df k) as [k' [_ [_ [_ H4]]]].
  rewrite (first_failure_none _ _ Hexec), Hcommit in H4.
  destruct H4 as [H4 Hload]. rewrite Hopen in H4.
  unfold RunEtl.run_etl. rewrite Hload.
  unfold state_of at 1 2; cbn [fst snd].
  pose proof (weather_run_dim_country w cities
                (connect (committed (committed_all k'))
                         (city_seq (committed_all k'))) eq_refl) as Hd.
  unfold EtlWeather.durable in Hd.
  destruct (EtlWeather.fetch_and_load_weather_on w cities
              (connect (committed (committed_all k'))
                       (city_seq (committed_all k'))))
    as [[ev2 k2] [[]|e]]; cbn [fst snd] in *;
    (split; [rewrite Hd; exact H4|reflexivity]).
Qed.

Lemma pipeline_keeps_loaded_countries_witness :
  (healthy accepting /\ working fresh_warehouse = committed fresh_warehouse)
  /\ dim_country
       (committed (snd (fst (RunEtl.run_etl
                               accepting alphabetical_csv
                               Examples.incomplete_forecast_world
                               [Examples.mombasa] fresh_warehouse))))
     = upsert_all alphabetical_csv (dim_country (committed fresh_warehouse)).
Proof.
  assert (Hw : healthy accepting) by (split; reflexivity).
  split; [split; [exact Hw|reflexivity]|].
  exact (proj1 (pipeline_keeps_loaded_countries
                  accepting alphabetical_csv
                  Examples.incomplete_forecast_world [Examples.mombasa]
                  fresh_warehouse Hw eq_refl)).
Defined.

End CountryFacts.

(* ------------------------------------------------------------------ *)
(** ** More on the report generator *)

Module ReportOrderFacts.
Import Warehouse Report Queries.

(** X19. When the warehouse query fails with a database error, [fetch_data]
    raises a [ConnectionError] in its place; [generate_report] prints it and
    re-raises it, and no file is written. *)
Theorem database_error_becomes_connection_error
        (w : world) (Hquery : read_sql w = QueryDbError) :
  fetch_data w = ([], Raised ConnectionError)
  /\ generate_report w =
     ([PrintBanner; PrintError ConnectionError], Raised ConnectionError)
  /\ snd (main w) = Raised ConnectionError
  /\ files_written (main w) = [].
Proof.
  assert (Hfetch : fetch_data w = ([], Raised ConnectionError)).
  { unfold fetch_data. rewrite Hquery. reflexivity. }
  assert (Hreport : generate_report w =
                    ([PrintBanner; PrintError ConnectionError],
                     Raised ConnectionError)).
  { unfold generate_report, generate_report_body. rewrite Hfetch. reflexivity. }
  split; [exact Hfetch|]. split; [exact Hreport|].
  unfold files_written, main. rewrite Hreport. split; reflexivity.
Qed.

Lemma database_error_becomes_connection_error_witness :
  read_sql {| read_sql := QueryDbError;
              pearsonr_raises := false;
              main_visualization_raises := false;
              distribution_plots_raises := false;
              insights_raises := false |} = QueryDbError
  /\ snd (main {| read_sql := QueryDbError;
                  pearsonr_raises := false;
                  main_visualization_raises := false;
                  distribution_plots_raises := false;
                  insights_raises := false |}) = Raised ConnectionError.
Proof.
  split; [reflexivity|].
  exact (proj1 (proj2 (proj2
    (database_error_becomes_connection_error
       {| read_sql := QueryDbError;
          pearsonr_raises := false;
          main_visualization_raises := false;
          distribution_plots_raises := false;
          insights_raises := false |} eq_refl)))).
Defined.

(** X20. Whatever the query returns and whichever library call fails, a
    run of the report first creates the output directory and writes an
    initial part of the sequence main chart, distribution chart, insights
    file. It returns exactly when all three were written; when it raises, it
    has printed that exception last and has not written the insights
    file. *)
Theorem report_files_are_written_in_order (w : world) :
  hd_error (fst (main w)) = Some MakeDirs
  /\ prefix_of same_file (files_written (main w)) report_files = true
  /\ (snd (main w) = Ok tt <-> files_written (main w) = report_files)
  /\ (forall e, snd (main w) = Raised e ->
                last (fst (main w)) MakeDirs = PrintError e
                /\ ~ In (WriteFile "report_insights.txt") (fst (main w))).
Proof.
  unfold files_written, main, generate_report, generate_report_body,
    fetch_data, calculate_statistics, create_main_visualization,
    create_distribution_plots, generate_insights, report_files.
  destruct (read_sql w) as [|[|r df]];
    destruct (pearsonr_raises w), (main_visualization_raises w),
      (distribution_plots_raises w), (insights_raises w);
    cbn; (split; [reflexivity|]); (split; [reflexivity|]);
    (split; [split; intros H; first [reflexivity|discriminate H]|]);
    intros e H; try discriminate H; injection H as <-;
    (split; [reflexivity|]); intuition discriminate.
Qed.

End ReportOrderFacts.
